(** * virtinst/domcapabilities.py: libvirt domain capabilities

    A shallow embedding of [virtinst/domcapabilities.py] and the proofs of
    its specified behaviour.  Python values that may be [None] are options,
    exceptions are an explicit outcome type, calls into the libvirt
    connection are threaded through a small state-and-exception monad that
    also records every call that was issued. *)

From Stdlib Require Import ZArith Ascii String.
From stdpp Require Import base option list strings gmap.

Local Open Scope string_scope.
Local Open Scope list_scope.

(** ** Python values, exceptions and outcomes *)

Module Py.

(** The exception classes this module meets.  Every constructor stands for
    a subclass of Python's [Exception]; [libvirtError] is the one raised by
    the libvirt bindings for an error reported by the hypervisor. *)
Inductive exn : Type :=
  | libvirtError (msg : string)
  | KeyError (key : option string)
  | IndexError
  | OtherException (cls msg : string).

Inductive outcome (A : Type) : Type :=
  | Return (a : A)
  | Raise (e : exn).
Arguments Return {A} a.
Arguments Raise {A} e.

(** The values exchanged with the connection object. *)
Inductive pyval : Type :=
  | PyNone
  | PyBool (b : bool)
  | PyStr (s : string).

(** Python truth value testing: [None], [False] and the empty string are
    false. *)
Definition truthy (v : pyval) : bool :=
  match v with
  | PyNone => false
  | PyBool b => b
  | PyStr s => negb (String.eqb s EmptyString)
  end.

(** The Python value of an [is_yesno] property. *)
Definition of_flag (o : option bool) : pyval :=
  match o with Some b => PyBool b | None => PyNone end.

(** [a and b]: [b] is evaluated only when [a] is true, otherwise the
    value of the expression is [a] itself. *)
Definition py_and (a : pyval) (b : outcome pyval) : outcome pyval :=
  if truthy a then b else Return a.

(** [x in l] for a string-or-None [x] and a list of strings [l]. *)
Definition py_in (x : option string) (l : list string) : bool :=
  match x with Some s => bool_decide (s ∈ l) | None => false end.

(** [x == s] for a string-or-None [x] and a string literal [s]. *)
Definition py_eq (x : option string) (s : string) : bool :=
  bool_decide (x = Some s).

Definition is_libvirtError (e : exn) : bool :=
  match e with libvirtError _ => true | _ => false end.

Definition obind {A B} (o : outcome A) (k : A → outcome B) : outcome B :=
  match o with Return a => k a | Raise e => Raise e end.

(** [l[i]] on a Python list. *)
Definition getitem {A} (l : list A) (i : nat) : outcome A :=
  match l !! i with Some a => Return a | None => Raise IndexError end.

(** A list comprehension whose element expression may raise: elements are
    evaluated left to right and the first exception escapes. *)
Fixpoint comprehension {A B} (f : A → outcome B) (l : list A)
  : outcome (list B) :=
  match l with
  | [] => Return []
  | a :: l' =>
      obind (f a) (λ b, obind (comprehension f l') (λ bs, Return (b :: bs)))
  end.

(** [dict(pairs)]: keys are inserted in iteration order, so a later pair
    replaces an earlier one with the same key. *)
Definition dict `{Countable K} {V} (pairs : list (K * V)) : gmap K V :=
  fold_left (λ d kv, <[kv.1 := kv.2]> d) pairs ∅.

End Py.
Import Py.

(** ** Regular expressions: the fragment of Python's [re] used by the
    UEFI pattern table *)

Module Re.

Inductive regex : Type :=
  | Void
  | Eps
  | Chr (c : ascii)
  | Dot
  | Cat (r s : regex)
  | Alt (r s : regex)
  | Star (r : regex).

Definition newline : ascii := "010"%char.

(** Without the DOTALL flag [.] matches any character except a newline. *)
Definition dot_ok (c : ascii) : bool := negb (Ascii.eqb c newline).

Fixpoint nullable (r : regex) : bool :=
  match r with
  | Void => false
  | Eps => true
  | Chr _ => false
  | Dot => false
  | Cat r s => nullable r && nullable s
  | Alt r s => nullable r || nullable s
  | Star _ => true
  end.

Definition cat (r s : regex) : regex :=
  match r, s with
  | Void, _ => Void
  | _, Void => Void
  | Eps, _ => s
  | _, _ => Cat r s
  end.

Definition alt (r s : regex) : regex :=
  match r, s with
  | Void, _ => s
  | _, Void => r
  | _, _ => Alt r s
  end.

(** Brzozowski derivative. *)
Fixpoint der (c : ascii) (r : regex) : regex :=
  match r with
  | Void => Void
  | Eps => Void
  | Chr c' => if Ascii.eqb c c' then Eps else Void
  | Dot => if dot_ok c then Eps else Void
  | Cat r s =>
      alt (cat (der c r) s) (if nullable r then der c s else Void)
  | Alt r s => alt (der c r) (der c s)
  | Star r => cat (der c r) (Star r)
  end.

(** [re.match] anchors at the start of the string only: it succeeds when
    some prefix of the string is in the language of the pattern. *)
Fixpoint match_prefix (r : regex) (s : list ascii) : bool :=
  nullable r ||
  match s with
  | [] => false
  | c :: s' => match_prefix (der c r) s'
  end.

Definition atom (c : ascii) : regex :=
  if Ascii.eqb c "."%char then Dot else Chr c.

(** Pattern syntax: a backslash makes the next character literal, [.] is
    the wildcard, a postfix [*] repeats the preceding atom, every other
    character stands for itself. *)
Fixpoint compile (p : list ascii) : regex :=
  match p with
  | [] => Eps
  | c :: p1 =>
      if Ascii.eqb c "\"%char then
        match p1 with
        | [] => Chr c
        | e :: p2 =>
            match p2 with
            | q :: p3 =>
                if Ascii.eqb q "*"%char then Cat (Star (Chr e)) (compile p3)
                else Cat (Chr e) (compile p2)
            | [] => Cat (Chr e) (compile p2)
            end
        end
      else
        match p1 with
        | q :: p2 =>
            if Ascii.eqb q "*"%char then Cat (Star (atom c)) (compile p2)
            else Cat (atom c) (compile p1)
        | [] => Cat (atom c) (compile p1)
        end
  end.

(** [re.match(pattern, s)], as a truth value. *)
Definition re_match (pattern s : string) : bool :=
  match_prefix (compile (list_ascii_of_string pattern))
               (list_ascii_of_string s).

(** The language of a regular expression. *)
Inductive matches : regex → list ascii → Prop :=
  | matches_eps : matches Eps []
  | matches_chr c : matches (Chr c) [c]
  | matches_dot c : dot_ok c = true → matches Dot [c]
  | matches_cat r s u v :
      matches r u → matches s v → matches (Cat r s) (u ++ v)
  | matches_alt_l r s u : matches r u → matches (Alt r s) u
  | matches_alt_r r s u : matches s u → matches (Alt r s) u
  | matches_star_nil r : matches (Star r) []
  | matches_star_app r u v :
      matches r u → matches (Star r) v → matches (Star r) (u ++ v).

End Re.

(** ** The data model

    An [XMLProperty] bound to an attribute or to a child element reads as
    [None] when the document lacks it, hence the options; [is_yesno]
    properties read as booleans.  The text of an element that is present
    (a [<value>], a [<model>]) is a string.  An [XMLChildProperty] is the
    ordered list of the matching children. *)

Module _Value.
Record t : Type := Build { value : string }.
End _Value.

Module _Enum.
Record t : Type := Build {
  name : option string;
  values : list _Value.t
}.
Definition get_values (self : t) : list string :=
  map _Value.value (values self).
End _Enum.

Module _CapsBlock.
Record t : Type := Build {
  supported : option bool;
  enums : list _Enum.t;
  values : list _Value.t
}.
Definition get_values (self : t) : list string :=
  map _Value.value (values self).
End _CapsBlock.

Module _OS.
Record t : Type := Build { block : _CapsBlock.t; loader : _CapsBlock.t }.
End _OS.

Module _Devices.
Record t : Type := Build {
  block : _CapsBlock.t;
  hostdev : _CapsBlock.t;
  disk : _CapsBlock.t
}.
End _Devices.

Module _Features.
Record t : Type := Build { block : _CapsBlock.t; gic : _CapsBlock.t }.
End _Features.

Module _CPUModel.
Record t : Type := Build {
  model : string;
  usable : option string;
  fallback : option string
}.
End _CPUModel.

Module _CPUFeature.
Record t : Type := Build { name : option string; policy : option string }.
End _CPUFeature.

Module _CPUMode.
Record t : Type := Build {
  name : option string;
  supported : option bool;
  vendor : option string;
  models : list _CPUModel.t;
  features : list _CPUFeature.t
}.
End _CPUMode.

Module _CPU.
Record t : Type := Build { modes : list _CPUMode.t }.
End _CPU.

(** Modelled from the spec: [DomainCpu] lives in [virtinst/domain], outside
    this file; of the object parsed from the expanded CPU description only
    the feature list (name and policy pairs) is read here. *)
Module DomainCpu.
Record t : Type := Build { features : list _CPUFeature.t }.
End DomainCpu.

(** ** The libvirt connection *)

Inductive support : Type := SUPPORT_CONN_DOMAIN_CAPABILITIES.

(** The calls this module issues on the connection object. *)
Inductive rpc : Type :=
  | check_support (feature : support)
  | getDomainCapabilities (emulator arch machine hvtype : option string)
  | baselineHypervisorCPU (path arch machine domain : option string)
      (xmlCPUs : list string) (flags : Z)
  | baselineCPU (xmlCPUs : list string) (flags : Z).

(** [libvirt.VIR_CONNECT_BASELINE_CPU_EXPAND_FEATURES] *)
Definition VIR_CONNECT_BASELINE_CPU_EXPAND_FEATURES : Z := 1.

(** A connection answers a call from its current state [St], with a value
    or an exception, and moves to a new state. *)
Record Conn (St : Type) : Type := BuildConn {
  answer : St → rpc → outcome pyval * St
}.
Arguments answer {St} _ _ _.
Arguments BuildConn {St} _.

(** What a computation runs in: the state of the hypervisor behind the
    connection, and the calls issued so far, oldest first. *)
Record world (St : Type) : Type := BuildWorld {
  hv : St;
  calls : list rpc
}.
Arguments hv {St} _.
Arguments calls {St} _.
Arguments BuildWorld {St} _ _.

Module DomainCapabilities.
Record t (St : Type) : Type := Build {
  conn : Conn St;
  os : _OS.t;
  cpu : _CPU.t;
  devices : _Devices.t;
  features : _Features.t;
  arch : option string;
  domain : option string;
  machine : option string;
  path : option string
}.
Arguments conn {St} _.
Arguments os {St} _.
Arguments cpu {St} _.
Arguments devices {St} _.
Arguments features {St} _.
Arguments arch {St} _.
Arguments domain {St} _.
Arguments machine {St} _.
Arguments path {St} _.
Arguments Build {St} _ _ _ _ _ _ _ _ _.
End DomainCapabilities.

(** ** Computations that call the connection and may raise *)

Definition M (St A : Type) : Type := world St → outcome A * world St.

Definition ret {St A} (a : A) : M St A := λ w, (Return a, w).

Definition raise {St A} (e : exn) : M St A := λ w, (Raise e, w).

Definition bind {St A B} (m : M St A) (k : A → M St B) : M St B :=
  λ w, match m w with
       | (Return a, w') => k a w'
       | (Raise e, w') => (Raise e, w')
       end.

Definition lift {St A} (o : outcome A) : M St A := λ w, (o, w).

(** [try: m except cls: h], where [catches] decides membership in [cls]. *)
Definition try_except {St A} (m : M St A) (catches : exn → bool)
    (h : exn → M St A) : M St A :=
  λ w, match m w with
       | (Return a, w') => (Return a, w')
       | (Raise e, w') => if catches e then h e w' else (Raise e, w')
       end.

(** One call on the connection; it is appended to the record of calls. *)
Definition call {St} (c : Conn St) (r : rpc) : M St pyval :=
  λ w, let (o, s) := answer c (hv w) r in
       (o, BuildWorld s (calls w ++ [r])).

Declare Scope py_scope.
Delimit Scope py_scope with py.
Notation "'let*' x ':=' m 'in' k" := (bind m (λ x, k))
  (at level 10, x name, m at level 100, k at level 200) : py_scope.
Local Open Scope py_scope.

(** [except Exception] *)
Definition any_Exception (e : exn) : bool := true.

(** ** The document-binding layer

    Modelled from the spec: [XMLBuilder] (module [virtinst/xmlbuilder]),
    [DomainCpu] (module [virtinst/domain]) and [xml.etree.ElementTree] are
    outside this file.  What this file asks of them is taken as an
    interface: parsing a fetched document, serialising a mode, rewriting
    that text into a standalone CPU description, and parsing the expanded
    CPU description the hypervisor sends back.  The rewrite may raise:
    [ET.fromstring] rejects text that is no document, and the assignment
    [root.attrib = None] raises [TypeError] on the interpreters whose
    [Element] accepts a dictionary only. *)
Class XMLBuilder (St : Type) : Type := BuildXML {
  (** [DomainCapabilities(conn, parsexml=xml)] *)
  parsexml : Conn St → pyval → outcome (DomainCapabilities.t St);
  (** [mode.get_xml()] *)
  get_xml : _CPUMode.t → string;
  (** [ET.fromstring], retag as [cpu], drop the attributes, add the [arch]
      child, [ET.tostring] *)
  ET_retag_cpu : string → option string → outcome string;
  (** [DomainCpu(conn, expandedXML)] *)
  parse_DomainCpu : Conn St → pyval → outcome DomainCpu.t
}.

Definition empty_block : _CapsBlock.t := _CapsBlock.Build None [] [].

(** Modelled from the spec: [DomainCapabilities(conn)], the [XMLBuilder]
    constructor without a document, gives the stub instance: every property
    absent, every child list empty. *)
Definition stub {St} (conn : Conn St) : DomainCapabilities.t St :=
  DomainCapabilities.Build conn
    (_OS.Build empty_block empty_block)
    (_CPU.Build [])
    (_Devices.Build empty_block empty_block empty_block)
    (_Features.Build empty_block empty_block)
    None None None None.

(** ** Generic [<enum>] and [<value>] handling *)

Definition enum_names (self : _CapsBlock.t) : list (option string) :=
  map _Enum.name (_CapsBlock.enums self).

Definition get_enum (self : _CapsBlock.t) (name : option string)
  : outcome _Enum.t :=
  let d := dict (map (λ e, (_Enum.name e, e)) (_CapsBlock.enums self)) in
  match d !! name with
  | Some e => Return e
  | None => Raise (KeyError name)
  end.

(** ** CPU classes *)

Fixpoint first_model (models : list _CPUModel.t) (name : string)
  : option _CPUModel.t :=
  match models with
  | [] => None
  | model :: rest =>
      if String.eqb (_CPUModel.model model) name then Some model
      else first_model rest name
  end.

Definition get_model (self : _CPUMode.t) (name : string)
  : option _CPUModel.t :=
  first_model (_CPUMode.models self) name.

Fixpoint first_mode (modes : list _CPUMode.t) (name : string)
  : option _CPUMode.t :=
  match modes with
  | [] => None
  | mode :: rest =>
      if py_eq (_CPUMode.name mode) name then Some mode
      else first_mode rest name
  end.

Definition get_mode (self : _CPU.t) (name : string) : option _CPUMode.t :=
  first_mode (_CPU.modes self) name.

(** ** The UEFI pattern table, in source order *)

Definition _uefi_arch_patterns : list (string * list string) :=
  [ ("i686", [ ".*ovmf-ia32.*" ]);
    ("x86_64", [ ".*OVMF_CODE\.fd";
                 ".*ovmf-x64/OVMF.*\.fd";
                 ".*ovmf-x86_64-.*";
                 ".*ovmf.*"; ".*OVMF.*" ]);
    ("aarch64", [ ".*AAVMF_CODE\.fd";
                  ".*aarch64/QEMU_EFI.*";
                  ".*aarch64.*" ]);
    ("armv7l", [ ".*arm/QEMU_EFI.*" ]) ].

(** [d.get(key)] on a dictionary kept as an association list. *)
Fixpoint table_get {V} (d : list (string * V)) (key : option string)
  : option V :=
  match d with
  | [] => None
  | (k, v) :: rest => if py_eq key k then Some v else table_get rest key
  end.

Definition sec_features : list string :=
  [ "spec-ctrl"; "ssbd"; "ibpb"; "virt-ssbd" ].

Section DomainCapabilities.
Context {St : Type} `{XML : !XMLBuilder St}.

Definition build_from_params (conn : Conn St)
    (emulator arch machine hvtype : option string) : M St (DomainCapabilities.t St) :=
  let* supported := call conn (check_support SUPPORT_CONN_DOMAIN_CAPABILITIES) in
  let* xml :=
    if truthy supported then
      try_except
        (call conn (getDomainCapabilities emulator arch machine hvtype))
        any_Exception
        (λ _, (* logging.debug *) ret PyNone)
    else ret PyNone in
  if negb (truthy xml) then
    (* If not supported, just use a stub object *)
    ret (stub conn)
  else lift (parsexml conn xml).

Definition arch_can_uefi (self : DomainCapabilities.t St) : bool :=
  py_in (DomainCapabilities.arch self) (map fst _uefi_arch_patterns).

(** The inner loop of [find_uefi_path_for_arch]: the first loader value,
    in document order, that [pattern] matches. *)
Fixpoint find_path (pattern : string) (paths : list string)
  : option string :=
  match paths with
  | [] => None
  | path :: rest =>
      if Re.re_match pattern path then Some path
      else find_path pattern rest
  end.

(** The outer loop: patterns in table order. *)
Fixpoint find_pattern (patterns : list string) (paths : list string)
  : option string :=
  match patterns with
  | [] => None
  | pattern :: rest =>
      match find_path pattern paths with
      | Some path => Some path
      | None => find_pattern rest paths
      end
  end.

Definition find_uefi_path_for_arch (self : DomainCapabilities.t St) : option string :=
  if negb (arch_can_uefi self) then None
  else
    match table_get _uefi_arch_patterns (DomainCapabilities.arch self) with
    | Some patterns =>
        find_pattern patterns
          (map _Value.value
             (_CapsBlock.values (_OS.loader (DomainCapabilities.os self))))
    | None => None (* not reached: the arch is a key of the table *)
    end.

(** The loops of [label_for_firmware_path]. *)
Fixpoint label_patterns (arch : string) (patterns : list string)
    (path : string) : option string :=
  match patterns with
  | [] => None
  | pattern :: rest =>
      if Re.re_match pattern path
      then Some ("UEFI " +:+ arch +:+ ": " +:+ path)
      else label_patterns arch rest path
  end.

Fixpoint label_items (items : list (string * list string)) (path : string)
  : option string :=
  match items with
  | [] => None
  | (arch, patterns) :: rest =>
      match label_patterns arch patterns path with
      | Some label => Some label
      | None => label_items rest path
      end
  end.

Definition label_for_firmware_path (self : DomainCapabilities.t St) (path : option string)
  : string :=
  match path with
  | Some (String c p) =>
      let path := String c p in
      match label_items _uefi_arch_patterns path with
      | Some label => label
      | None => "Custom: " +:+ path
      end
  | _ =>
      (* [not path]: None or the empty string *)
      if py_in (DomainCapabilities.arch self) [ "i686"; "x86_64" ]
      then "BIOS" else "None"
  end.

Definition supports_uefi_xml (self : DomainCapabilities.t St) : outcome bool :=
  let loader := _OS.loader (DomainCapabilities.os self) in
  if bool_decide (Some "readonly" ∈ enum_names loader) then
    obind (get_enum loader (Some "readonly"))
      (λ e, Return (bool_decide ("yes" ∈ _Enum.get_values e)))
  else Return false.

Definition safe_host_model (m : _CPUMode.t) : outcome pyval :=
  py_and (PyBool (py_eq (_CPUMode.name m) "host-model"))
    (py_and (of_flag (_CPUMode.supported m))
       (obind (getitem (_CPUMode.models m) 0)
          (λ m0, Return (PyBool (py_eq (_CPUModel.fallback m0) "forbid"))))).

Definition supports_safe_host_model (self : DomainCapabilities.t St)
  : outcome (list pyval) :=
  comprehension safe_host_model (_CPU.modes (DomainCapabilities.cpu self)).

(** The inner loop of [get_cpu_models]; [models] is the list being
    appended to. *)
Fixpoint append_usable (ms : list _CPUModel.t) (models : list string)
  : list string :=
  match ms with
  | [] => models
  | model :: rest =>
      if negb (py_eq (_CPUModel.usable model) "no")
      then append_usable rest (models ++ [_CPUModel.model model])
      else append_usable rest models
  end.

Fixpoint append_custom (modes : list _CPUMode.t) (models : list string)
  : list string :=
  match modes with
  | [] => models
  | m :: rest =>
      if py_eq (_CPUMode.name m) "custom"
         && truthy (of_flag (_CPUMode.supported m))
      then append_custom rest (append_usable (_CPUMode.models m) models)
      else append_custom rest models
  end.

Definition get_cpu_models (self : DomainCapabilities.t St) : list string :=
  append_custom (_CPU.modes (DomainCapabilities.cpu self)) [].

Definition _convert_mode_to_cpu (self : DomainCapabilities.t St)
    (xml : string) : outcome string :=
  ET_retag_cpu xml (DomainCapabilities.arch self).

Definition _get_expanded_cpu (self : DomainCapabilities.t St) (mode : _CPUMode.t)
  : M St DomainCpu.t :=
  (* before the [try]: an exception of the conversion escapes *)
  let* cpuXML := lift (_convert_mode_to_cpu self (get_xml mode)) in
  let* expandedXML :=
    try_except
      (call (DomainCapabilities.conn self)
         (baselineHypervisorCPU
            (DomainCapabilities.path self) (DomainCapabilities.arch self)
            (DomainCapabilities.machine self)
            (DomainCapabilities.domain self)
            [cpuXML] VIR_CONNECT_BASELINE_CPU_EXPAND_FEATURES))
      is_libvirtError
      (λ _, call (DomainCapabilities.conn self)
              (baselineCPU [cpuXML]
                 VIR_CONNECT_BASELINE_CPU_EXPAND_FEATURES)) in
  lift (parse_DomainCpu (DomainCapabilities.conn self) expandedXML).

(** The inner loop of [get_cpu_security_features]. *)
Fixpoint append_security (cpu_features : list _CPUFeature.t)
    (features : list string) : list string :=
  match cpu_features with
  | [] => features
  | feature :: rest =>
      match _CPUFeature.name feature with
      | Some n =>
          if bool_decide (n ∈ sec_features)
          then append_security rest (features ++ [n])
          else append_security rest features
      | None => append_security rest features
      end
  end.

(** The loop over the modes: [continue] goes on with the rest of the
    modes, [break] returns what has been accumulated. *)
Fixpoint security_loop (self : DomainCapabilities.t St) (modes : list _CPUMode.t)
    (features : list string) : M St (list string) :=
  match modes with
  | [] => ret features
  | m :: rest =>
      if negb (py_eq (_CPUMode.name m) "host-model")
         || negb (truthy (of_flag (_CPUMode.supported m)))
      then security_loop self rest features
      else
        let* cpu :=
          try_except
            (let* cpu := _get_expanded_cpu self m in ret (Some cpu))
            is_libvirtError
            (λ e, (* logging.warning *) ret None) in
        match cpu with
        | None => ret features
        | Some cpu =>
            security_loop self rest
              (append_security (DomainCpu.features cpu) features)
        end
  end.

Definition get_cpu_security_features (self : DomainCapabilities.t St)
  : M St (list string) :=
  security_loop self (_CPU.modes (DomainCapabilities.cpu self)) [].

End DomainCapabilities.

(** ** The security-feature query, as the specification words it

    [security_names cpu] are the names of the expanded features that lie
    in the fixed set, in the order the hypervisor reported them.
    [security_scan self modes acc w r w'] reads: scanning [modes] from the
    world [w] with the names [acc] accumulated so far ends with the
    outcome [r] in the world [w']. *)

Section security_scan.
Context {St : Type} `{XML : !XMLBuilder St}.

Definition security_names (cpu : DomainCpu.t) : list string :=
  filter (λ n, n ∈ sec_features)
    (omap _CPUFeature.name (DomainCpu.features cpu)).

(** The modes the query expands: named "host-model" and supported. *)
Definition expanded_mode (m : _CPUMode.t) : Prop :=
  _CPUMode.name m = Some "host-model" ∧ _CPUMode.supported m = Some true.

Inductive security_scan (self : DomainCapabilities.t St) :
  list _CPUMode.t → list string → world St →
  outcome (list string) → world St → Prop :=
  | scan_end acc w :
      security_scan self [] acc w (Return acc) w
  | scan_skip m modes acc w r w' :
      ¬ expanded_mode m →
      security_scan self modes acc w r w' →
      security_scan self (m :: modes) acc w r w'
  | scan_append m modes acc w cpu w1 r w' :
      expanded_mode m →
      _get_expanded_cpu self m w = (Return cpu, w1) →
      security_scan self modes (acc ++ security_names cpu) w1 r w' →
      security_scan self (m :: modes) acc w r w'
  | scan_stop m modes acc w msg w1 :
      expanded_mode m →
      _get_expanded_cpu self m w = (Raise (libvirtError msg), w1) →
      security_scan self (m :: modes) acc w (Return acc) w1
  | scan_escape m modes acc w e w1 :
      expanded_mode m →
      _get_expanded_cpu self m w = (Raise e, w1) →
      is_libvirtError e = false →
      security_scan self (m :: modes) acc w (Raise e) w1.

End security_scan.

(** ** The per-mode test of [supports_safe_host_model], as propositions *)

(** What the element expression tests. *)
Definition safe_host_model_holds (m : _CPUMode.t) : Prop :=
  _CPUMode.name m = Some "host-model" ∧
  _CPUMode.supported m = Some true ∧
  ∃ m0, head (_CPUMode.models m) = Some m0 ∧
        _CPUModel.fallback m0 = Some "forbid".

(** The modes on which indexing the first model fails. *)
Definition host_model_without_models (m : _CPUMode.t) : Prop :=
  _CPUMode.name m = Some "host-model" ∧
  _CPUMode.supported m = Some true ∧
  _CPUMode.models m = [].

(** ** Concrete connections and documents, for the examples *)

Module Fixture.

(** A binding layer over three known documents. *)
Definition features_of (doc : string) : option (list _CPUFeature.t) :=
  if String.eqb doc "<cpu>one</cpu>" then
    Some [ _CPUFeature.Build (Some "spec-ctrl") (Some "require");
           _CPUFeature.Build (Some "vmx") (Some "require");
           _CPUFeature.Build None None;
           _CPUFeature.Build (Some "ibpb") (Some "require") ]
  else if String.eqb doc "<cpu>two</cpu>" then
    Some [ _CPUFeature.Build (Some "ssbd") (Some "require") ]
  else None.

Definition xml {St} : XMLBuilder St :=
  BuildXML St
    (λ conn doc, Raise (OtherException "RuntimeError" "not a document"))
    (λ m, "<mode>" +:+ default EmptyString (_CPUMode.vendor m) +:+ "</mode>")
    (λ doc arch,
       Return ("<cpu>" +:+ default EmptyString arch +:+ doc +:+ "</cpu>"))
    (λ conn v,
       match v with
       | PyStr doc =>
           match features_of doc with
           | Some fs => Return (DomainCpu.Build fs)
           | None => Raise (OtherException "RuntimeError" "not a CPU")
           end
       | _ => Raise (OtherException "RuntimeError" "not a CPU")
       end).

(** The same layer on an interpreter that refuses [root.attrib = None]. *)
Definition xml_attrib_TypeError {St} : XMLBuilder St :=
  BuildXML St
    (@parsexml St xml)
    (@get_xml St xml)
    (λ doc arch,
       Raise (OtherException "TypeError"
                "attrib must be dict, not NoneType"))
    (@parse_DomainCpu St xml).

(** A connection without the capability query. *)
Definition conn_unsupported : Conn unit :=
  BuildConn (λ s r,
    match r with
    | check_support _ => (Return (PyBool false), s)
    | _ => (Raise (libvirtError "unsupported"), s)
    end).

(** A connection on which fetching the document fails. *)
Definition conn_fetch_fails : Conn unit :=
  BuildConn (λ s r,
    match r with
    | check_support _ => (Return (PyBool true), s)
    | _ => (Raise (OtherException "OSError" "connection reset"), s)
    end).

(** A connection that answers the fetch with an empty document. *)
Definition conn_empty_document : Conn unit :=
  BuildConn (λ s r,
    match r with
    | check_support _ => (Return (PyBool true), s)
    | getDomainCapabilities _ _ _ _ => (Return (PyStr EmptyString), s)
    | _ => (Raise (libvirtError "unsupported"), s)
    end).

(** A hypervisor whose state counts the baseline calls it has answered.
    It lacks the newer call; the older one succeeds twice, then fails. *)
Definition conn_baseline : Conn nat :=
  BuildConn (λ s r,
    match r with
    | baselineHypervisorCPU _ _ _ _ _ _ =>
        (Raise (libvirtError "this function is not supported"), s)
    | baselineCPU _ _ =>
        match s with
        | 0 => (Return (PyStr "<cpu>one</cpu>"), S s)
        | 1 => (Return (PyStr "<cpu>two</cpu>"), S s)
        | _ => (Raise (libvirtError "internal error"), S s)
        end
    | _ => (Raise (libvirtError "unsupported"), s)
    end).

(** A hypervisor with the newer call. *)
Definition conn_newer : Conn unit :=
  BuildConn (λ s r,
    match r with
    | baselineHypervisorCPU _ _ _ _ _ _ =>
        (Return (PyStr "<cpu>two</cpu>"), s)
    | _ => (Raise (libvirtError "unsupported"), s)
    end).

(** A connection object whose bindings lack the newer call altogether. *)
Definition conn_no_attribute : Conn unit :=
  BuildConn (λ s r,
    match r with
    | baselineCPU _ _ => (Return (PyStr "<cpu>one</cpu>"), s)
    | _ => (Raise (OtherException "AttributeError" "no such method"), s)
    end).

Definition mode (name : string) (supported : option bool)
    (models : list _CPUModel.t) : _CPUMode.t :=
  _CPUMode.Build (Some name) supported None models [].

Definition loader_block (paths : list string) : _CapsBlock.t :=
  _CapsBlock.Build (Some true)
    [ _Enum.Build (Some "type") [ _Value.Build "rom"; _Value.Build "pflash" ];
      _Enum.Build (Some "readonly") [ _Value.Build "yes"; _Value.Build "no" ] ]
    (map _Value.Build paths).

(** An instance with the given connection, architecture, loader values
    and CPU modes. *)
Definition domcaps {St} (conn : Conn St) (arch : string)
    (paths : list string) (modes : list _CPUMode.t)
  : DomainCapabilities.t St :=
  DomainCapabilities.Build conn
    (_OS.Build empty_block (loader_block paths))
    (_CPU.Build modes)
    (_Devices.Build empty_block empty_block empty_block)
    (_Features.Build empty_block empty_block)
    (Some arch) (Some "kvm") (Some "pc") (Some "/usr/bin/qemu-kvm").

Definition spec_models : list _CPUModel.t :=
  [ _CPUModel.Build "A" (Some "yes") None;
    _CPUModel.Build "B" (Some "no") None;
    _CPUModel.Build "C" None None ].

(** Loader values in which the generic name comes first in the document
    and the RHEL name second. *)
Definition caps_x86_64 : DomainCapabilities.t unit :=
  domcaps conn_unsupported "x86_64"
    [ "/usr/share/ovmf/plain.bin"; "/opt/OVMF_CODE.fd" ]
    [ mode "custom" (Some true) spec_models ].

(** The loader values of the specification's example. *)
Definition caps_spec_example : DomainCapabilities.t unit :=
  domcaps conn_unsupported "x86_64"
    [ "/usr/share/ovmf/OVMF_CODE.fd"; "/opt/custom/fw.bin" ] [].

Definition caps_s390x : DomainCapabilities.t unit :=
  domcaps conn_unsupported "s390x"
    [ "/usr/share/ovmf/plain.bin"; "/opt/OVMF_CODE.fd" ] [].

Definition caps_aarch64 : DomainCapabilities.t unit :=
  domcaps conn_unsupported "aarch64" [] [].

Definition host_models : list _CPUMode.t :=
  [ mode "host-model" None [];
    mode "host-model" (Some true)
      [ _CPUModel.Build "Skylake-Client" None (Some "forbid") ];
    mode "host-model" (Some true)
      [ _CPUModel.Build "Skylake-Client" None (Some "allow") ];
    mode "custom" (Some true) [] ].

Definition caps_host_models : DomainCapabilities.t unit :=
  domcaps conn_unsupported "x86_64" [] host_models.

Definition caps_no_models : DomainCapabilities.t unit :=
  domcaps conn_unsupported "x86_64" []
    [ mode "custom" (Some true) []; mode "host-model" (Some true) [] ].

Definition host_model : _CPUMode.t := mode "host-model" (Some true) [].

(** Four host-model modes behind a hypervisor that fails on the third
    expansion. *)
Definition caps_baseline : DomainCapabilities.t nat :=
  domcaps conn_baseline "x86_64" []
    [ mode "custom" (Some true) []; host_model; host_model; host_model;
      host_model ].

Definition caps_newer : DomainCapabilities.t unit :=
  domcaps conn_newer "x86_64" [] [ host_model ].

Definition caps_no_attribute : DomainCapabilities.t unit :=
  domcaps conn_no_attribute "x86_64" [] [ host_model ].

(** The two calls of an expansion on these instances. *)
Definition newer_call : rpc :=
  baselineHypervisorCPU (Some "/usr/bin/qemu-kvm") (Some "x86_64")
    (Some "pc") (Some "kvm") [ "<cpu>x86_64<mode></mode></cpu>" ] 1.

Definition older_call : rpc :=
  baselineCPU [ "<cpu>x86_64<mode></mode></cpu>" ] 1.

(** A block in which the enum name "type" is repeated. *)
Definition repeated_block : _CapsBlock.t :=
  _CapsBlock.Build (Some true)
    [ _Enum.Build (Some "type") [ _Value.Build "rom" ];
      _Enum.Build (Some "readonly") [ _Value.Build "yes" ];
      _Enum.Build (Some "type") [ _Value.Build "pflash" ] ]
    [].

End Fixture.

(** ** The rest of the module: building from a guest, and the calls of an
    expansion *)

(** Modelled from the spec: the guest configuration object lives in
    [virtinst/guest]; [build_from_guest] reads its connection, its emulator
    path, the arch and machine of its [os] block and its type. *)
Module GuestOs.
Record t : Type := Build { arch : option string; machine : option string }.
End GuestOs.

Module Guest.
Record t (St : Type) : Type := Build {
  conn : Conn St;
  emulator : option string;
  os : GuestOs.t;
  type : option string
}.
Arguments conn {St} _.
Arguments emulator {St} _.
Arguments os {St} _.
Arguments type {St} _.
Arguments Build {St} _ _ _ _.
End Guest.

Section further.
Context {St : Type} `{XML : !XMLBuilder St}.

Definition build_from_guest (guest : Guest.t St)
  : M St (DomainCapabilities.t St) :=
  build_from_params (Guest.conn guest) (Guest.emulator guest)
    (GuestOs.arch (Guest.os guest)) (GuestOs.machine (Guest.os guest))
    (Guest.type guest).

(** The first call [_get_expanded_cpu] issues for the descriptor
    [cpuXML]. *)
Definition newer_baseline (self : DomainCapabilities.t St)
    (cpuXML : string) : rpc :=
  baselineHypervisorCPU
    (DomainCapabilities.path self) (DomainCapabilities.arch self)
    (DomainCapabilities.machine self) (DomainCapabilities.domain self)
    [ cpuXML ] VIR_CONNECT_BASELINE_CPU_EXPAND_FEATURES.

(** The call it falls back to. *)
Definition older_baseline (cpuXML : string) : rpc :=
  baselineCPU [ cpuXML ] VIR_CONNECT_BASELINE_CPU_EXPAND_FEATURES.

(** The calls a query may issue for a mode: the newer or the older
    baseline call for the descriptor built from the mode. *)
Definition baseline_of (self : DomainCapabilities.t St) (m : _CPUMode.t)
    (c : rpc) : Prop :=
  ∃ cpuXML, _convert_mode_to_cpu self (get_xml m) = Return cpuXML ∧
            (c = newer_baseline self cpuXML ∨ c = older_baseline cpuXML).

(** [expansions self modes w cpus w']: from the world [w] every supported
    host-model mode of [modes], taken in order, expands, each in the world
    the one before left; [cpus] are the descriptions obtained and [w'] is
    the world after the last. *)
Inductive expansions (self : DomainCapabilities.t St) :
  list _CPUMode.t → world St → list DomainCpu.t → world St → Prop :=
  | expansions_nil w : expansions self [] w [] w
  | expansions_skip m modes w cpus w' :
      ¬ expanded_mode m →
      expansions self modes w cpus w' →
      expansions self (m :: modes) w cpus w'
  | expansions_cons m modes w cpu w1 cpus w' :
      expanded_mode m →
      _get_expanded_cpu self m w = (Return cpu, w1) →
      expansions self modes w1 cpus w' →
      expansions self (m :: modes) w (cpu :: cpus) w'.

End further.

(** A run of literal characters followed by [r]: what [Re.compile] makes
    of a literal stretch of a pattern. *)
Definition literal (l : list ascii) (r : Re.regex) : Re.regex :=
  foldr (λ c r, Re.Cat (Re.Chr c) r) r l.

(** The substring test behind the catch-all patterns: [needle] occurs in
    [s] and only characters that [.] matches stand before it. *)
Definition on_first_line (needle s : list ascii) : Prop :=
  ∃ before after,
    s = before ++ needle ++ after ∧
    Forall (λ c, Re.dot_ok c = true) before.

Module FixtureMore.
Import Fixture.

(** A connection that supports the query and answers with a document. *)
Definition conn_document : Conn unit :=
  BuildConn (λ s r,
    match r with
    | check_support _ => (Return (PyBool true), s)
    | getDomainCapabilities _ _ _ _ =>
        (Return (PyStr "<domainCapabilities/>"), s)
    | _ => (Raise (libvirtError "unsupported"), s)
    end).

(** A connection whose support check itself fails. *)
Definition conn_check_raises : Conn unit :=
  BuildConn (λ s r, (Raise (libvirtError "connection closed"), s)).

(** A binding layer that parses the one document above into an aarch64
    instance. *)
Definition xml_document : XMLBuilder unit :=
  BuildXML unit
    (λ conn doc,
       match doc with
       | PyStr d =>
           if String.eqb d "<domainCapabilities/>"
           then Return (domcaps conn "aarch64" [] [])
           else Raise (OtherException "RuntimeError" "not a document")
       | _ => Raise (OtherException "RuntimeError" "not a document")
       end)
    (@get_xml unit Fixture.xml)
    (@ET_retag_cpu unit Fixture.xml)
    (@parse_DomainCpu unit Fixture.xml).

Definition guest_unsupported : Guest.t unit :=
  Guest.Build conn_unsupported (Some "/usr/bin/qemu-kvm")
    (GuestOs.Build (Some "x86_64") (Some "pc")) (Some "kvm").

(** An x86_64 instance one of whose loader values also carries the i686
    name. *)
Definition caps_ia32_path : DomainCapabilities.t unit :=
  domcaps conn_unsupported "x86_64"
    [ "/opt/fw.bin"; "/usr/share/edk2.git/ovmf-ia32/OVMF_CODE-pure-efi.fd" ]
    [].

Definition cpu_tree : _CPU.t :=
  _CPU.Build
    [ mode "custom" (Some true) spec_models;
      mode "host-model" (Some false) [];
      mode "host-model" (Some true)
        [ _CPUModel.Build "A" None (Some "forbid") ] ].

(** Two supported host-model modes behind a hypervisor that answers the
    newer call, always with the same description. *)
Definition caps_two_host_models : DomainCapabilities.t unit :=
  domcaps conn_newer "x86_64" [] [ host_model; host_model ].

(** A custom mode and two supported host-model modes behind the hypervisor
    whose answers depend on the calls made so far. *)
Definition caps_baseline_two : DomainCapabilities.t nat :=
  domcaps conn_baseline "x86_64" []
    [ mode "custom" (Some true) []; host_model; host_model ].

Definition caps_custom_only : DomainCapabilities.t unit :=
  domcaps conn_unsupported "x86_64" []
    [ mode "custom" (Some true) spec_models ].

End FixtureMore.

(** * Proofs *)

(** ** The matcher decides the language of the pattern *)

Module ReFacts.
Import Re.

Lemma nullable_spec r : nullable r = true ↔ matches r [].
Proof.
  induction r as [| | c | |r IHr s IHs|r IHr s IHs|r IHr]; simpl.
  - split; [discriminate | inversion 1].
  - split; [constructor | done].
  - split; [discriminate | inversion 1].
  - split; [discriminate | inversion 1].
  - rewrite andb_true_iff, IHr, IHs. split.
    + intros [Hr Hs]. apply (matches_cat _ _ [] [] Hr Hs).
    + inversion 1 as [| | |? ? u v Hu Hv Hrs Huv| | | |]; subst.
      apply app_eq_nil in Huv as [-> ->]. done.
  - rewrite orb_true_iff, IHr, IHs. split.
    + intros [Hr | Hs]; [by apply matches_alt_l | by apply matches_alt_r].
    + inversion 1; subst; auto.
  - split; [constructor | done].
Qed.

Lemma matches_void u : ¬ matches Void u.
Proof. inversion 1. Qed.

Lemma matches_eps_inv u : matches Eps u → u = [].
Proof. by inversion 1. Qed.

Lemma matches_cat_inv r s w :
  matches (Cat r s) w → ∃ u v, w = u ++ v ∧ matches r u ∧ matches s v.
Proof. inversion 1; subst; eauto. Qed.

Lemma matches_alt_inv r s w : matches (Alt r s) w → matches r w ∨ matches s w.
Proof. inversion 1; subst; eauto. Qed.

Lemma cat_spec r s w : matches (cat r s) w ↔ matches (Cat r s) w.
Proof.
  split.
  - intros H.
    destruct r; try (by destruct (matches_void _ H));
      destruct s; simpl in H; try (by destruct (matches_void _ H));
      try exact H; apply (matches_cat Eps _ [] w); first [exact H | constructor].
  - intros (u & v & -> & Hu & Hv)%matches_cat_inv.
    destruct r; try (by destruct (matches_void _ Hu));
      destruct s; simpl; try (by destruct (matches_void _ Hv));
      try (by constructor);
      apply matches_eps_inv in Hu as ->; exact Hv.
Qed.

Lemma alt_spec r s w : matches (alt r s) w ↔ matches (Alt r s) w.
Proof.
  split.
  - intros H.
    destruct r; simpl in H;
      try (by apply matches_alt_r);
      destruct s; simpl in H; try exact H; by apply matches_alt_l.
  - intros [H | H]%matches_alt_inv.
    + destruct r; try (by destruct (matches_void _ H));
        destruct s; simpl; try exact H; by apply matches_alt_l.
    + destruct r; simpl; try exact H;
        destruct s; try (by destruct (matches_void _ H));
        by apply matches_alt_r.
Qed.

(** A non-empty word of a starred language starts with a non-empty word
    of the language itself. *)
Lemma matches_star_cons r c w :
  matches (Star r) (c :: w) →
  ∃ u v, w = u ++ v ∧ matches r (c :: u) ∧ matches (Star r) v.
Proof.
  intros H. remember (Star r) as sr eqn:Hsr. remember (c :: w) as cw eqn:Hcw.
  induction H as [| | | | | | |r' u v Hu _ Hv IHv]; try discriminate.
  injection Hsr as ->. destruct u as [|c' u]; simpl in Hcw.
  - by apply IHv.
  - injection Hcw as -> <-. eauto.
Qed.

Lemma der_spec c r : ∀ w, matches (der c r) w ↔ matches r (c :: w).
Proof.
  induction r as [| |c'| |r IHr s IHs|r IHr s IHs|r IHr]; intros w; simpl.
  - split; inversion 1.
  - split; inversion 1.
  - destruct (Ascii.eqb_spec c c') as [->|Hne]; split; inversion 1; subst;
      by try constructor.
  - destruct (dot_ok c) eqn:Hc; split; inversion 1; subst;
      try (by constructor); congruence.
  - rewrite alt_spec. split.
    + intros [H | H]%matches_alt_inv.
      * apply cat_spec, matches_cat_inv in H as (u & v & -> & Hu & Hv).
        apply IHr in Hu. apply (matches_cat _ _ (c :: u) v Hu Hv).
      * destruct (nullable r) eqn:Hn; [|by destruct (matches_void _ H)].
        apply nullable_spec in Hn. apply IHs in H.
        apply (matches_cat _ _ [] (c :: w) Hn H).
    + intros (u & v & Huv & Hu & Hv)%matches_cat_inv.
      destruct u as [|c' u]; simpl in Huv.
      * subst v. apply matches_alt_r.
        apply nullable_spec in Hu as ->. by apply IHs.
      * injection Huv as <- ->. apply matches_alt_l, cat_spec.
        apply matches_cat; [by apply IHr | done].
  - rewrite alt_spec. split.
    + intros [H | H]%matches_alt_inv;
        [apply matches_alt_l, IHr | apply matches_alt_r, IHs]; done.
    + intros [H | H]%matches_alt_inv;
        [apply matches_alt_l, IHr | apply matches_alt_r, IHs]; done.
  - rewrite cat_spec. split.
    + intros (u & v & -> & Hu & Hv)%matches_cat_inv.
      apply IHr in Hu. apply (matches_star_app _ (c :: u) v Hu Hv).
    + intros (u & v & -> & Hu & Hv)%matches_star_cons.
      apply matches_cat; [by apply IHr | done].
Qed.

(** [match_prefix] holds exactly when a prefix of the subject is a word of
    the expression: the meaning of [re.match]. *)
Lemma match_prefix_spec s : ∀ r,
  match_prefix r s = true ↔ ∃ u v, s = u ++ v ∧ matches r u.
Proof.
  induction s as [|c s IH]; intros r; simpl.
  - rewrite orb_false_r, nullable_spec. split.
    + intros H. by exists [], [].
    + intros (u & v & Huv & Hu). symmetry in Huv.
      apply app_eq_nil in Huv as [-> ->]. done.
  - rewrite orb_true_iff, nullable_spec, IH. split.
    + intros [H | (u & v & -> & Hu)].
      * by exists [], (c :: s).
      * exists (c :: u), v. split; [done | by apply der_spec].
    + intros (u & v & Huv & Hu). destruct u as [|c' u]; simpl in Huv.
      * by left.
      * injection Huv as <- ->. right. exists u, v.
        split; [done | by apply der_spec].
Qed.

(** [re.match(pattern, s)] succeeds exactly when the compiled pattern has a
    word that is a prefix of [s]. *)
Lemma re_match_spec pattern s :
  re_match pattern s = true ↔
  ∃ u v, list_ascii_of_string s = u ++ v ∧
         matches (compile (list_ascii_of_string pattern)) u.
Proof. apply match_prefix_spec. Qed.

End ReFacts.

(** ** Dictionaries built from a list of pairs *)

Section dict.
Context `{Countable K} {V : Type}.
Implicit Types (pairs : list (K * V)) (k : K) (v : V).

Lemma dict_snoc pairs k v : dict (pairs ++ [(k, v)]) = <[k:=v]> (dict pairs).
Proof. unfold dict. by rewrite fold_left_app. Qed.

Lemma dict_lookup_None pairs k : dict pairs !! k = None ↔ k ∉ pairs.*1.
Proof.
  induction pairs as [|[k' v'] pairs IH] using rev_ind.
  - split; [intros _; apply not_elem_of_nil | done].
  - rewrite dict_snoc, fmap_app, not_elem_of_app; simpl.
    rewrite lookup_insert_None, IH, not_elem_of_cons.
    split; [intros [? ?] | intros [? [? _]]]; repeat split; auto;
      apply not_elem_of_nil.
Qed.

Lemma dict_lookup_Some pairs k v : dict pairs !! k = Some v → (k, v) ∈ pairs.
Proof.
  induction pairs as [|[k' v'] pairs IH] using rev_ind.
  - done.
  - rewrite dict_snoc, lookup_insert_Some, elem_of_app, list_elem_of_singleton.
    intros [[-> ->] | [_ Hk]]; auto.
Qed.

(** The last pair with a given key is the one that is kept. *)
Lemma dict_lookup_last l1 k v l2 :
  k ∉ l2.*1 → dict (l1 ++ (k, v) :: l2) !! k = Some v.
Proof.
  induction l2 as [|[k' v'] l2 IH] using rev_ind; intros Hk.
  - by rewrite dict_snoc, lookup_insert_eq.
  - rewrite fmap_app, not_elem_of_app in Hk. destruct Hk as [Hk Hk'].
    apply not_elem_of_cons in Hk' as [Hk' _]. simpl in Hk'.
    rewrite app_comm_cons, app_assoc, dict_snoc, lookup_insert_ne by done.
    by apply IH.
Qed.

End dict.

(** ** [_CapsBlock.get_enum] *)

Lemma enum_pairs_keys (l : list _Enum.t) (n : option string) :
  n ∉ (map (λ e, (_Enum.name e, e)) l).*1 ↔ ∀ e, e ∈ l → _Enum.name e ≠ n.
Proof.
  rewrite <- list_fmap_compose. split.
  - intros Hn e He <-. apply Hn, (list_elem_of_fmap_2 _ _ _ He).
  - intros Hl (e & -> & He)%list_elem_of_fmap. by apply (Hl e).
Qed.

(** C7: [get_enum(n)] returns an enum of the block named [n] when there is
    one (the last one in document order, should a name be repeated), and
    fails with [KeyError(n)], the lookup failure of a Python dictionary,
    when the block has no enum named [n]. *)
Theorem get_enum_found_or_KeyError (B : _CapsBlock.t) (n : option string) :
  ((∃ e, e ∈ _CapsBlock.enums B ∧ _Enum.name e = n) →
     ∃ e, get_enum B n = Return e ∧
          e ∈ _CapsBlock.enums B ∧ _Enum.name e = n) ∧
  (∀ l1 e l2, _CapsBlock.enums B = l1 ++ e :: l2 → _Enum.name e = n →
     (∀ e', e' ∈ l2 → _Enum.name e' ≠ n) → get_enum B n = Return e) ∧
  ((∀ e, e ∈ _CapsBlock.enums B → _Enum.name e ≠ n) →
     get_enum B n = Raise (KeyError n)).
Proof.
  unfold get_enum. split; [|split].
  - intros (e & He & Hn).
    destruct (dict _ !! n) as [e'|] eqn:Hd.
    + apply dict_lookup_Some, list_elem_of_fmap in Hd as (e'' & Heq & ?).
      injection Heq as Heq ->. by exists e''.
    + apply dict_lookup_None in Hd.
      by destruct (proj1 (enum_pairs_keys _ _) Hd e He).
  - intros l1 e l2 -> <- Hl2. rewrite map_app. simpl.
    rewrite dict_lookup_last; [done | by apply enum_pairs_keys].
  - intros Hn. apply (proj2 (enum_pairs_keys _ _)), dict_lookup_None in Hn.
    by rewrite Hn.
Qed.

(** ** Truth values *)

Lemma py_eq_true x s : py_eq x s = true ↔ x = Some s.
Proof. unfold py_eq. apply bool_decide_eq_true. Qed.

Lemma py_eq_false x s : py_eq x s = false ↔ x ≠ Some s.
Proof. unfold py_eq. apply bool_decide_eq_false. Qed.

Lemma truthy_of_flag o : truthy (of_flag o) = true ↔ o = Some true.
Proof. destruct o as [[]|]; simpl; split; congruence. Qed.

(** ** [get_cpu_models] *)

Lemma append_usable_spec ms : ∀ acc,
  append_usable ms acc =
  acc ++ map _CPUModel.model
           (filter (λ x, _CPUModel.usable x ≠ Some "no") ms).
Proof.
  induction ms as [|x ms IH]; intros acc; simpl.
  - by rewrite app_nil_r.
  - rewrite filter_cons. destruct (py_eq _ _) eqn:Hx; simpl.
    + apply py_eq_true in Hx. rewrite decide_False by auto. apply IH.
    + apply py_eq_false in Hx. rewrite decide_True by done.
      rewrite IH. simpl. by rewrite <- app_assoc.
Qed.

Lemma append_custom_spec modes : ∀ acc,
  append_custom modes acc =
  acc ++ concat
    (map (λ m, map _CPUModel.model
                 (filter (λ x, _CPUModel.usable x ≠ Some "no")
                    (_CPUMode.models m)))
       (filter (λ m, _CPUMode.name m = Some "custom" ∧
                     _CPUMode.supported m = Some true) modes)).
Proof.
  induction modes as [|m modes IH]; intros acc; simpl.
  - by rewrite app_nil_r.
  - rewrite filter_cons.
    destruct (py_eq _ _ && truthy _) eqn:Hm.
    + apply andb_true_iff in Hm as [Hn%py_eq_true Hs%truthy_of_flag].
      rewrite decide_True by done. simpl.
      by rewrite IH, append_usable_spec, <- app_assoc.
    + rewrite decide_False; [apply IH|].
      intros [Hn%py_eq_true Hs%truthy_of_flag]. by rewrite Hn, Hs in Hm.
Qed.

(** C5: [get_cpu_models] is the concatenation, over the supported modes
    named "custom" in document order, of the names of their models whose
    [usable] attribute is not "no", in document order; and one supported
    custom mode with the models A (usable yes), B (usable no) and C (usable
    unset) yields A and C. *)
Theorem get_cpu_models_concat {St} (self : DomainCapabilities.t St) :
  get_cpu_models self =
    concat
      (map (λ m, map _CPUModel.model
                   (filter (λ x, _CPUModel.usable x ≠ Some "no")
                      (_CPUMode.models m)))
         (filter (λ m, _CPUMode.name m = Some "custom" ∧
                       _CPUMode.supported m = Some true)
            (_CPU.modes (DomainCapabilities.cpu self)))) ∧
  (∀ m, _CPU.modes (DomainCapabilities.cpu self) = [m] →
        _CPUMode.name m = Some "custom" →
        _CPUMode.supported m = Some true →
        _CPUMode.models m =
          [ _CPUModel.Build "A" (Some "yes") None;
            _CPUModel.Build "B" (Some "no") None;
            _CPUModel.Build "C" None None ] →
        get_cpu_models self = [ "A"; "C" ]).
Proof.
  unfold get_cpu_models. split.
  - by rewrite append_custom_spec.
  - intros m -> Hn Hs Hm. simpl. by rewrite Hn, Hs, Hm.
Qed.

(** ** [supports_safe_host_model] *)

Lemma safe_host_model_cases m :
  (host_model_without_models m ∧ safe_host_model m = Raise IndexError) ∨
  (¬ host_model_without_models m ∧
   ∃ v, safe_host_model m = Return v ∧
        (v = PyBool true ↔ safe_host_model_holds m) ∧
        (truthy v = true ↔ safe_host_model_holds m)).
Proof.
  unfold safe_host_model, safe_host_model_holds, host_model_without_models,
    py_and, getitem.
  destruct (py_eq (_CPUMode.name m) _) eqn:Hn; simpl.
  - apply py_eq_true in Hn.
    destruct (_CPUMode.supported m) as [[]|] eqn:Hs; simpl.
    + destruct (_CPUMode.models m) as [|m0 ms] eqn:Hm; simpl.
      * by left.
      * right. split; [by intros (_ & _ & ?)|].
        eexists. split; [done|].
        destruct (py_eq (_CPUModel.fallback m0) _) eqn:Hf.
        -- apply py_eq_true in Hf. split; (split; [eauto 6 | done]).
        -- apply py_eq_false in Hf.
           split; (split; [done | by intros (_ & _ & ? & [= <-] & ?)]).
    + right. split; [by intros (_ & ? & _)|]. eexists. split; [done|].
      split; (split; [done | by intros (_ & ? & _)]).
    + right. split; [by intros (_ & ? & _)|]. eexists. split; [done|].
      split; (split; [done | by intros (_ & ? & _)]).
  - apply py_eq_false in Hn.
    right. split; [by intros (? & _)|]. eexists. split; [done|].
    split; (split; [done | by intros (? & _)]).
Qed.

Lemma safe_host_model_list_Return (modes : list _CPUMode.t) :
  (∀ m, m ∈ modes → ¬ host_model_without_models m) →
  ∃ l, comprehension safe_host_model modes = Return l ∧
       Forall2 (λ m v, (v = PyBool true ↔ safe_host_model_holds m) ∧
                       (truthy v = true ↔ safe_host_model_holds m))
         modes l.
Proof.
  induction modes as [|m modes IH]; intros Hok; simpl.
  - exists []. by split.
  - destruct (safe_host_model_cases m) as [[Hbad _] | (_ & v & -> & Hv)].
    { destruct (Hok m); [left | done]. }
    destruct IH as (l & -> & Hl).
    { intros m' Hm'. apply Hok. by right. }
    exists (v :: l). split; [done | by constructor].
Qed.

Lemma safe_host_model_list_Raise (modes : list _CPUMode.t) :
  (∃ m, m ∈ modes ∧ host_model_without_models m) →
  comprehension safe_host_model modes = Raise IndexError.
Proof.
  induction modes as [|m modes IH]; intros (m' & Hin & Hbad); simpl.
  - by apply elem_of_nil in Hin.
  - destruct (safe_host_model_cases m) as [[_ ->] | (Hok & v & -> & _)];
      [done|]. simpl.
    apply elem_of_cons in Hin as [-> | Hin]; [done|].
    rewrite IH; [done | eauto].
Qed.

Lemma comprehension_Forall2 {A B} (f : A → outcome B) (l : list A) :
  ∀ bs, comprehension f l = Return bs →
        Forall2 (λ a b, f a = Return b) l bs.
Proof.
  induction l as [|a l IH]; simpl; intros bs.
  - intros [= <-]. constructor.
  - destruct (f a) as [b|e] eqn:Hb; simpl; [|done].
    destruct (comprehension f l) as [bs'|e]; simpl; [|done].
    intros [= <-]. constructor; [done | by apply IH].
Qed.

Lemma safe_host_model_None m v :
  safe_host_model m = Return v →
  (v = PyNone ↔ _CPUMode.name m = Some "host-model" ∧
                _CPUMode.supported m = None).
Proof.
  unfold safe_host_model, py_and, getitem.
  destruct (py_eq (_CPUMode.name m) _) eqn:Hn; simpl.
  - apply py_eq_true in Hn.
    destruct (_CPUMode.supported m) as [[]|]; simpl.
    + destruct (_CPUMode.models m); simpl; [done|].
      intros [= <-]. split; [done | by intros [_ ?]].
    + intros [= <-]. split; [done | by intros [_ ?]].
    + by intros [= <-].
  - apply py_eq_false in Hn. intros [= <-]. split; [done | by intros [? _]].
Qed.

Lemma safe_host_model_entry m v :
  safe_host_model m = Return v →
  (v = PyBool true ↔ safe_host_model_holds m) ∧
  (truthy v = true ↔ safe_host_model_holds m) ∧
  (v = PyNone ↔ _CPUMode.name m = Some "host-model" ∧
                _CPUMode.supported m = None) ∧
  (v = PyBool false ↔
     ¬ safe_host_model_holds m ∧
     ¬ (_CPUMode.name m = Some "host-model" ∧ _CPUMode.supported m = None)).
Proof.
  intros Hv. pose proof (safe_host_model_None m v Hv) as Hnone.
  destruct (safe_host_model_cases m) as [[_ Hraise] | (_ & v' & Hv' & Ht & Hc)];
    [congruence|].
  assert (v' = v) as -> by congruence.
  split; [done|]. split; [done|]. split; [done|].
  assert (v = PyNone ∨ ∃ b, v = PyBool b) as Hkind.
  { revert Hv. unfold safe_host_model, py_and, getitem.
    destruct (py_eq (_CPUMode.name m) _); simpl; [|intros [= <-]; eauto].
    destruct (_CPUMode.supported m) as [[]|]; simpl;
      [|intros [= <-]; eauto..].
    destruct (_CPUMode.models m); simpl; [done | intros [= <-]; eauto]. }
  split.
  - intros ->. split.
    + intros Hh. by apply Ht in Hh.
    + intros Hn. by apply Hnone in Hn.
  - intros [Hh Hn]. destruct Hkind as [-> | [[] ->]]; [|..|done].
    + destruct Hn. by apply Hnone.
    + destruct Hh. by apply Ht.
Qed.

(** C4, as amended: provided every supported host-model mode has at least
    one model, [supports_safe_host_model] returns a list with one value per
    mode of the CPU tree, in order, not one aggregate truth value.  The
    value for a mode is [True] (and is true as a condition) exactly when
    the mode is named "host-model", is supported and its first model has
    [fallback] "forbid"; it is [None] exactly when the mode is named
    "host-model" and has no [supported] attribute; it is [False] in every
    other case. *)
Theorem supports_safe_host_model_per_mode {St}
    (self : DomainCapabilities.t St) :
  (∀ m, m ∈ _CPU.modes (DomainCapabilities.cpu self) →
        _CPUMode.name m = Some "host-model" →
        _CPUMode.supported m = Some true →
        _CPUMode.models m ≠ []) →
  ∃ l, supports_safe_host_model self = Return l ∧
       length l = length (_CPU.modes (DomainCapabilities.cpu self)) ∧
       Forall2 (λ m v,
                  (v = PyBool true ↔ safe_host_model_holds m) ∧
                  (truthy v = true ↔ safe_host_model_holds m) ∧
                  (v = PyNone ↔ _CPUMode.name m = Some "host-model" ∧
                                _CPUMode.supported m = None) ∧
                  (v = PyBool false ↔
                     ¬ safe_host_model_holds m ∧
                     ¬ (_CPUMode.name m = Some "host-model" ∧
                        _CPUMode.supported m = None)))
         (_CPU.modes (DomainCapabilities.cpu self)) l.
Proof.
  intros Hmodels. unfold supports_safe_host_model.
  destruct (safe_host_model_list_Return
              (_CPU.modes (DomainCapabilities.cpu self))) as (l & Hl & _).
  - intros m Hm (Hn & Hs & Hnil). by apply (Hmodels m).
  - exists l. pose proof (comprehension_Forall2 _ _ _ Hl) as Hall.
    split; [done|]. split; [symmetry; by eapply Forall2_length|].
    eapply Forall2_impl; [exact Hall|]. apply safe_host_model_entry.
Qed.

(** C9: when some mode named "host-model" is supported and has no model,
    [supports_safe_host_model] raises [IndexError] and returns no list;
    when no mode is of that shape it does return a list, one value per
    mode: on every other mode the conjunction stops before indexing. *)
Theorem supports_safe_host_model_IndexError {St}
    (self : DomainCapabilities.t St) :
  ((∃ m, m ∈ _CPU.modes (DomainCapabilities.cpu self) ∧
         _CPUMode.name m = Some "host-model" ∧
         _CPUMode.supported m = Some true ∧
         _CPUMode.models m = []) →
     supports_safe_host_model self = Raise IndexError) ∧
  ((∀ m, m ∈ _CPU.modes (DomainCapabilities.cpu self) →
         ¬ (_CPUMode.name m = Some "host-model" ∧
            _CPUMode.supported m = Some true ∧
            _CPUMode.models m = [])) →
     ∃ l, supports_safe_host_model self = Return l ∧
          length l = length (_CPU.modes (DomainCapabilities.cpu self))).
Proof.
  unfold supports_safe_host_model. split.
  - apply safe_host_model_list_Raise.
  - intros Hok.
    destruct (safe_host_model_list_Return _ Hok) as (l & Hl & Hall).
    exists l. split; [done | symmetry; by eapply Forall2_length].
Qed.

(** ** [find_uefi_path_for_arch] *)

Lemma find_path_None pattern paths :
  find_path pattern paths = None ↔
  ∀ w, w ∈ paths → Re.re_match pattern w = false.
Proof.
  induction paths as [|x paths IH]; simpl.
  - split; [intros _ w Hw; by apply elem_of_nil in Hw | done].
  - destruct (Re.re_match pattern x) eqn:Hx.
    + split; [done|]. intros Hall. rewrite Hall in Hx; [done | by left].
    + rewrite IH. split.
      * intros Hall w [-> | Hw]%elem_of_cons; auto.
      * intros Hall w Hw. apply Hall. by right.
Qed.

Lemma find_path_Some pattern paths v :
  find_path pattern paths = Some v ↔
  ∃ vpre vpost, paths = vpre ++ v :: vpost ∧
    Re.re_match pattern v = true ∧
    ∀ w, w ∈ vpre → Re.re_match pattern w = false.
Proof.
  induction paths as [|x paths IH]; simpl.
  - split; [done|]. intros (vpre & vpost & Hnil & _).
    by destruct vpre.
  - destruct (Re.re_match pattern x) eqn:Hx.
    + split.
      * intros [= <-]. exists [], paths. repeat split; [done|].
        intros w Hw. by apply elem_of_nil in Hw.
      * intros ([|y vpre] & vpost & Heq & Hv & Hpre); simpl in Heq.
        -- by injection Heq as ->.
        -- injection Heq as <- _. rewrite Hpre in Hx; [done | by left].
    + rewrite IH. split.
      * intros (vpre & vpost & -> & Hv & Hpre).
        exists (x :: vpre), vpost. repeat split; [done|].
        intros w [-> | Hw]%elem_of_cons; auto.
      * intros ([|y vpre] & vpost & Heq & Hv & Hpre); simpl in Heq.
        -- injection Heq as -> _. congruence.
        -- injection Heq as <- ->. exists vpre, vpost.
           repeat split; [done|]. intros w Hw. apply Hpre. by right.
Qed.

Lemma find_pattern_None patterns paths :
  find_pattern patterns paths = None ↔
  ∀ p w, p ∈ patterns → w ∈ paths → Re.re_match p w = false.
Proof.
  induction patterns as [|q patterns IH]; simpl.
  - split; [intros _ p w Hp; by apply elem_of_nil in Hp | done].
  - destruct (find_path q paths) as [v|] eqn:Hq.
    + split; [done|]. intros Hall.
      apply find_path_Some in Hq as (vpre & vpost & -> & Hv & _).
      rewrite Hall in Hv; [done | by left |].
      apply elem_of_app. right. by left.
    + rewrite IH. rewrite find_path_None in Hq. split.
      * intros Hall p w [-> | Hp]%elem_of_cons Hw; auto.
      * intros Hall p w Hp Hw. apply Hall; [by right | done].
Qed.

Lemma find_pattern_Some patterns paths v :
  find_pattern patterns paths = Some v ↔
  ∃ pre p post, patterns = pre ++ p :: post ∧
    find_path p paths = Some v ∧
    ∀ q w, q ∈ pre → w ∈ paths → Re.re_match q w = false.
Proof.
  induction patterns as [|q patterns IH]; simpl.
  - split; [done|]. intros (pre & p & post & Hnil & _). by destruct pre.
  - destruct (find_path q paths) as [v'|] eqn:Hq.
    + split.
      * intros [= <-]. exists [], q, patterns. repeat split; [done|].
        intros q' w Hq'. by apply elem_of_nil in Hq'.
      * intros ([|q' pre] & p & post & Heq & Hp & Hpre); simpl in Heq.
        -- injection Heq as <- _. congruence.
        -- injection Heq as <- _.
           apply find_path_Some in Hq as (vpre & vpost & -> & Hv & _).
           rewrite Hpre in Hv; [done | by left |].
           apply elem_of_app. right. by left.
    + rewrite IH. rewrite find_path_None in Hq. split.
      * intros (pre & p & post & -> & Hp & Hpre).
        exists (q :: pre), p, post. repeat split; [done|].
        intros q' w [-> | Hq']%elem_of_cons Hw; auto.
      * intros ([|q' pre] & p & post & Heq & Hp & Hpre); simpl in Heq.
        -- injection Heq as <- _.
           apply find_path_Some in Hp as (vpre & vpost & -> & Hv & _).
           rewrite Hq in Hv; [done|]. apply elem_of_app. right. by left.
        -- injection Heq as <- ->. exists pre, p, post.
           repeat split; [done|]. intros q0 w Hq0 Hw.
           apply Hpre; [by right | done].
Qed.

Lemma table_get_NoDup {V} (d : list (string * V)) k v :
  NoDup d.*1 → (k, v) ∈ d → table_get d (Some k) = Some v.
Proof.
  induction d as [|[k' v'] d IH]; simpl; intros Hnd Hin.
  - by apply elem_of_nil in Hin.
  - apply NoDup_cons in Hnd as [Hk' Hnd].
    apply elem_of_cons in Hin as [[= -> ->] | Hin].
    + by rewrite (proj2 (py_eq_true _ _)).
    + destruct (py_eq (Some k) k') eqn:Hk.
      * apply py_eq_true in Hk as [= ->]. destruct Hk'.
        by apply (list_elem_of_fmap_2 fst _ (k', v)).
      * by apply IH.
Qed.

Lemma uefi_arch_keys_NoDup : NoDup _uefi_arch_patterns.*1.
Proof. apply (bool_decide_unpack _). by vm_compute. Qed.

(** C2: [find_uefi_path_for_arch] returns [None] when the arch of the
    instance is not a key of the pattern table; otherwise the value it
    returns is the first loader value, in document order, matched by the
    earliest pattern of that arch that matches any loader value at all,
    whatever values later patterns match and wherever those stand in the
    document; and it returns [None] exactly when no pattern of the arch
    matches any loader value. *)
Theorem find_uefi_path_for_arch_earliest_pattern {St}
    (self : DomainCapabilities.t St) :
  let values :=
    map _Value.value
      (_CapsBlock.values (_OS.loader (DomainCapabilities.os self))) in
  ((∀ a, DomainCapabilities.arch self = Some a →
         a ∉ _uefi_arch_patterns.*1) →
     find_uefi_path_for_arch self = None) ∧
  (∀ a patterns,
     DomainCapabilities.arch self = Some a →
     (a, patterns) ∈ _uefi_arch_patterns →
     (∀ v, find_uefi_path_for_arch self = Some v ↔
           ∃ pre p post vpre vpost,
             patterns = pre ++ p :: post ∧
             values = vpre ++ v :: vpost ∧
             Re.re_match p v = true ∧
             (∀ w, w ∈ vpre → Re.re_match p w = false) ∧
             (∀ q w, q ∈ pre → w ∈ values → Re.re_match q w = false)) ∧
     (find_uefi_path_for_arch self = None ↔
        ∀ p w, p ∈ patterns → w ∈ values → Re.re_match p w = false)).
Proof.
  intros values. unfold find_uefi_path_for_arch, arch_can_uefi. split.
  - intros Hkey. destruct (DomainCapabilities.arch self) as [a|]; [|done].
    simpl. by rewrite bool_decide_eq_false_2 by (by apply Hkey).
  - intros a patterns Ha Hin.
    rewrite Ha, (table_get_NoDup _ _ _ uefi_arch_keys_NoDup Hin).
    unfold py_in.
    rewrite bool_decide_eq_true_2
      by apply (list_elem_of_fmap_2 fst _ _ Hin).
    cbn [negb]. fold values. split.
    + intros v. rewrite find_pattern_Some. split.
      * intros (pre & p & post & -> & Hp & Hpre).
        apply find_path_Some in Hp as (vpre & vpost & Hv & Hm & Hvpre).
        exists pre, p, post, vpre, vpost. by repeat split.
      * intros (pre & p & post & vpre & vpost & -> & Hv & Hm & Hvpre & Hpre).
        exists pre, p, post. repeat split; [|done].
        apply find_path_Some. by exists vpre, vpost.
    + apply find_pattern_None.
Qed.

(** ** [label_for_firmware_path] *)

Lemma label_patterns_None arch patterns path :
  label_patterns arch patterns path = None ↔
  ∀ q, q ∈ patterns → Re.re_match q path = false.
Proof.
  induction patterns as [|p patterns IH]; simpl.
  - split; [intros _ q Hq; by apply elem_of_nil in Hq | done].
  - destruct (Re.re_match p path) eqn:Hp.
    + split; [done|]. intros Hall. rewrite Hall in Hp; [done | by left].
    + rewrite IH. split.
      * intros Hall q [-> | Hq]%elem_of_cons; auto.
      * intros Hall q Hq. apply Hall. by right.
Qed.

Lemma label_patterns_Some arch patterns path q :
  q ∈ patterns → Re.re_match q path = true →
  label_patterns arch patterns path
    = Some ("UEFI " +:+ arch +:+ ": " +:+ path).
Proof.
  induction patterns as [|p patterns IH]; simpl; intros Hq Hm.
  - by apply elem_of_nil in Hq.
  - destruct (Re.re_match p path) eqn:Hp; [done|].
    apply elem_of_cons in Hq as [-> | Hq]; [congruence | by apply IH].
Qed.

Lemma label_items_None items path :
  label_items items path = None ↔
  ∀ a pats q, (a, pats) ∈ items → q ∈ pats → Re.re_match q path = false.
Proof.
  induction items as [|[a' pats'] items IH]; simpl.
  - split; [intros _ a pats q Hin; by apply elem_of_nil in Hin | done].
  - destruct (label_patterns a' pats' path) as [l|] eqn:Hl.
    + split; [done|]. intros Hall.
      assert (label_patterns a' pats' path = None) as Hnone; [|congruence].
      apply label_patterns_None. intros q Hq.
      apply (Hall a' pats' q); [by left | done].
    + rewrite IH. rewrite label_patterns_None in Hl. split.
      * intros Hall a pats q [[= -> ->] | Hin]%elem_of_cons Hq; eauto.
      * intros Hall a pats q Hin Hq. apply (Hall a pats q); [by right|done].
Qed.

Lemma label_items_first l1 a pats l2 path q :
  (∀ a' pats' q', (a', pats') ∈ l1 → q' ∈ pats' →
     Re.re_match q' path = false) →
  q ∈ pats → Re.re_match q path = true →
  label_items (l1 ++ (a, pats) :: l2) path
    = Some ("UEFI " +:+ a +:+ ": " +:+ path).
Proof.
  intros Hl1 Hq Hm. induction l1 as [|[a' pats'] l1 IH]; simpl.
  - by rewrite (label_patterns_Some a pats path q).
  - assert (label_patterns a' pats' path = None) as ->.
    { apply label_patterns_None. intros q' Hq'.
      apply (Hl1 a' pats' q'); [by left | done]. }
    apply IH. intros a'' pats'' q'' Hin. apply (Hl1 a'' pats''). by right.
Qed.

(** C6, as amended: when [path] is absent or the empty string the label
    is "BIOS" on i686 and x86_64 and "None" on any other arch; when [path]
    is a non-empty string the patterns of every architecture of the table
    are scanned in table order, whatever the arch of the instance, and the
    label is "UEFI <arch>: <path>" for the architecture of the first
    pattern that matches, and "Custom: <path>" when no pattern of the
    whole table matches. *)
Theorem label_for_firmware_path_cases {St}
    (self : DomainCapabilities.t St) :
  (∀ path, path = None ∨ path = Some EmptyString →
     (DomainCapabilities.arch self = Some "i686" ∨
      DomainCapabilities.arch self = Some "x86_64" →
        label_for_firmware_path self path = "BIOS") ∧
     (DomainCapabilities.arch self ≠ Some "i686" →
      DomainCapabilities.arch self ≠ Some "x86_64" →
        label_for_firmware_path self path = "None")) ∧
  (∀ p, p ≠ EmptyString →
     (∀ l1 a pats l2 q,
        _uefi_arch_patterns = l1 ++ (a, pats) :: l2 →
        (∀ a' pats' q', (a', pats') ∈ l1 → q' ∈ pats' →
           Re.re_match q' p = false) →
        q ∈ pats → Re.re_match q p = true →
        label_for_firmware_path self (Some p)
          = "UEFI " +:+ a +:+ ": " +:+ p) ∧
     ((∀ a pats q, (a, pats) ∈ _uefi_arch_patterns → q ∈ pats →
         Re.re_match q p = false) →
        label_for_firmware_path self (Some p) = "Custom: " +:+ p)).
Proof.
  split.
  - intros path Hpath.
    assert (label_for_firmware_path self path =
            if py_in (DomainCapabilities.arch self) [ "i686"; "x86_64" ]
            then "BIOS" else "None") as ->.
    { by destruct Hpath as [-> | ->]. }
    unfold py_in. split.
    + intros [-> | ->]; by vm_compute.
    + intros H1 H2. destruct (DomainCapabilities.arch self) as [a|]; [|done].
      rewrite bool_decide_eq_false_2; [done|].
      intros [-> | [-> | Hnil%elem_of_nil]%elem_of_cons]%elem_of_cons; done.
  - intros p Hp. destruct p as [|c p]; [done|].
    unfold label_for_firmware_path. split.
    + intros l1 a pats l2 q Htable Hl1 Hq Hm.
      by rewrite Htable, (label_items_first l1 a pats l2 _ q).
    + intros Hnone. apply label_items_None in Hnone. by rewrite Hnone.
Qed.

(** ** Calls on the connection *)

Section connection.
Context {St : Type} `{XML : !XMLBuilder St}.
Implicit Types (conn : Conn St) (w : world St) (self : DomainCapabilities.t St).

Lemma call_answer conn r w o s :
  answer conn (hv w) r = (o, s) →
  call conn r w = (o, BuildWorld s (calls w ++ [r])).
Proof. unfold call. by intros ->. Qed.

(** *** [build_from_params] *)

Lemma build_from_params_unsupported conn emulator arch machine hvtype w sup s1 :
  answer conn (hv w) (check_support SUPPORT_CONN_DOMAIN_CAPABILITIES)
    = (Return sup, s1) →
  truthy sup = false →
  build_from_params conn emulator arch machine hvtype w =
    (Return (stub conn),
     BuildWorld s1
       (calls w ++ [check_support SUPPORT_CONN_DOMAIN_CAPABILITIES])).
Proof.
  intros Hsup Hfalse. unfold build_from_params, bind.
  rewrite (call_answer _ _ _ _ _ Hsup), Hfalse. done.
Qed.

Lemma build_from_params_fetch_raises
    conn emulator arch machine hvtype w sup s1 e s2 :
  answer conn (hv w) (check_support SUPPORT_CONN_DOMAIN_CAPABILITIES)
    = (Return sup, s1) →
  truthy sup = true →
  answer conn s1 (getDomainCapabilities emulator arch machine hvtype)
    = (Raise e, s2) →
  build_from_params conn emulator arch machine hvtype w =
    (Return (stub conn),
     BuildWorld s2
       (calls w ++ [check_support SUPPORT_CONN_DOMAIN_CAPABILITIES;
                    getDomainCapabilities emulator arch machine hvtype])).
Proof.
  intros Hsup Htrue Hget. unfold build_from_params, bind, try_except.
  rewrite (call_answer _ _ _ _ _ Hsup), Htrue.
  rewrite (call_answer conn _ (BuildWorld s1 _) _ _ Hget). simpl.
  by rewrite <- app_assoc.
Qed.

Lemma build_from_params_fetch_falsy
    conn emulator arch machine hvtype w sup s1 xml s2 :
  answer conn (hv w) (check_support SUPPORT_CONN_DOMAIN_CAPABILITIES)
    = (Return sup, s1) →
  truthy sup = true →
  answer conn s1 (getDomainCapabilities emulator arch machine hvtype)
    = (Return xml, s2) →
  truthy xml = false →
  build_from_params conn emulator arch machine hvtype w =
    (Return (stub conn),
     BuildWorld s2
       (calls w ++ [check_support SUPPORT_CONN_DOMAIN_CAPABILITIES;
                    getDomainCapabilities emulator arch machine hvtype])).
Proof.
  intros Hsup Htrue Hget Hxml. unfold build_from_params, bind, try_except.
  rewrite (call_answer _ _ _ _ _ Hsup), Htrue.
  rewrite (call_answer conn _ (BuildWorld s1 _) _ _ Hget). simpl.
  by rewrite Hxml, <- app_assoc.
Qed.

(** C1: when the connection does not support the capability query, and
    when it does but fetching the document raises (whatever the
    exception), [build_from_params] returns the stub instance and raises
    nothing; every structural field of the stub is empty and every query
    on it reports nothing. *)
Theorem build_from_params_stub conn emulator arch machine hvtype w :
  (∀ sup s1,
     answer conn (hv w) (check_support SUPPORT_CONN_DOMAIN_CAPABILITIES)
       = (Return sup, s1) →
     truthy sup = false →
     build_from_params conn emulator arch machine hvtype w =
       (Return (stub conn),
        BuildWorld s1
          (calls w ++ [check_support SUPPORT_CONN_DOMAIN_CAPABILITIES]))) ∧
  (∀ sup s1 e s2,
     answer conn (hv w) (check_support SUPPORT_CONN_DOMAIN_CAPABILITIES)
       = (Return sup, s1) →
     truthy sup = true →
     answer conn s1 (getDomainCapabilities emulator arch machine hvtype)
       = (Raise e, s2) →
     build_from_params conn emulator arch machine hvtype w =
       (Return (stub conn),
        BuildWorld s2
          (calls w ++ [check_support SUPPORT_CONN_DOMAIN_CAPABILITIES;
                       getDomainCapabilities emulator arch machine hvtype]))) ∧
  (DomainCapabilities.arch (stub conn) = None ∧
   DomainCapabilities.domain (stub conn) = None ∧
   DomainCapabilities.machine (stub conn) = None ∧
   DomainCapabilities.path (stub conn) = None ∧
   _CPU.modes (DomainCapabilities.cpu (stub conn)) = [] ∧
   Forall (λ b, _CapsBlock.supported b = None ∧ _CapsBlock.enums b = [] ∧
                _CapsBlock.values b = [])
     [ _OS.block (DomainCapabilities.os (stub conn));
       _OS.loader (DomainCapabilities.os (stub conn));
       _Devices.block (DomainCapabilities.devices (stub conn));
       _Devices.hostdev (DomainCapabilities.devices (stub conn));
       _Devices.disk (DomainCapabilities.devices (stub conn));
       _Features.block (DomainCapabilities.features (stub conn));
       _Features.gic (DomainCapabilities.features (stub conn)) ] ∧
   arch_can_uefi (stub conn) = false ∧
   find_uefi_path_for_arch (stub conn) = None ∧
   supports_uefi_xml (stub conn) = Return false ∧
   supports_safe_host_model (stub conn) = Return [] ∧
   get_cpu_models (stub conn) = [] ∧
   get_cpu_security_features (stub conn) w = (Return [], w)).
Proof.
  split; [|split].
  - intros sup s1. apply build_from_params_unsupported.
  - intros sup s1 e s2. apply build_from_params_fetch_raises.
  - repeat split; repeat constructor.
Qed.

(** C10: when the connection supports the capability query and the fetch
    succeeds with an empty (false) document, [build_from_params] still
    returns the stub instance, the very value it returns for a connection
    without the query and for a failed fetch. *)
Theorem build_from_params_empty_document
    conn emulator arch machine hvtype w sup s1 xml s2 :
  answer conn (hv w) (check_support SUPPORT_CONN_DOMAIN_CAPABILITIES)
    = (Return sup, s1) →
  truthy sup = true →
  answer conn s1 (getDomainCapabilities emulator arch machine hvtype)
    = (Return xml, s2) →
  truthy xml = false →
  build_from_params conn emulator arch machine hvtype w =
    (Return (stub conn),
     BuildWorld s2
       (calls w ++ [check_support SUPPORT_CONN_DOMAIN_CAPABILITIES;
                    getDomainCapabilities emulator arch machine hvtype])) ∧
  (∀ w0 sup0 s0,
     answer conn (hv w0) (check_support SUPPORT_CONN_DOMAIN_CAPABILITIES)
       = (Return sup0, s0) →
     truthy sup0 = false ∨
     (∃ e s', answer conn s0
                (getDomainCapabilities emulator arch machine hvtype)
              = (Raise e, s')) →
     (build_from_params conn emulator arch machine hvtype w0).1 =
     (build_from_params conn emulator arch machine hvtype w).1).
Proof.
  intros Hsup Htrue Hget Hxml.
  rewrite (build_from_params_fetch_falsy _ _ _ _ _ _ _ _ _ _
             Hsup Htrue Hget Hxml).
  split; [done|]. intros w0 sup0 s0 Hsup0 Hcase.
  destruct (truthy sup0) eqn:Ht0.
  - destruct Hcase as [? | (e & s' & Hget0)]; [done|].
    by rewrite (build_from_params_fetch_raises _ _ _ _ _ _ _ _ _ _
                  Hsup0 Ht0 Hget0).
  - by rewrite (build_from_params_unsupported _ _ _ _ _ _ _ _ Hsup0 Ht0).
Qed.

End connection.

(** ** Expanding a CPU mode and scanning for security features *)

Section expansion.
Context {St : Type} `{XML : !XMLBuilder St}.
Implicit Types (w : world St) (self : DomainCapabilities.t St).


Lemma append_security_spec fs : ∀ acc,
  append_security fs acc =
  acc ++ filter (λ n, n ∈ sec_features) (omap _CPUFeature.name fs).
Proof.
  induction fs as [|f fs IH]; intros acc; simpl.
  - by rewrite app_nil_r.
  - destruct (_CPUFeature.name f) as [n|]; simpl; [|apply IH].
    rewrite filter_cons. case_bool_decide.
    + rewrite decide_True by done. by rewrite IH, <- app_assoc.
    + rewrite decide_False by done. apply IH.
Qed.

Lemma expanded_mode_test (m : _CPUMode.t) :
  negb (py_eq (_CPUMode.name m) "host-model")
    || negb (truthy (of_flag (_CPUMode.supported m))) = false
  ↔ expanded_mode m.
Proof.
  unfold expanded_mode.
  rewrite orb_false_iff, !negb_false_iff, py_eq_true, truthy_of_flag. done.
Qed.

Lemma security_loop_cons self m modes acc w :
  security_loop self (m :: modes) acc w =
  if negb (py_eq (_CPUMode.name m) "host-model")
     || negb (truthy (of_flag (_CPUMode.supported m)))
  then security_loop self modes acc w
  else
    match _get_expanded_cpu self m w with
    | (Return cpu, w1) =>
        security_loop self modes (acc ++ security_names cpu) w1
    | (Raise e, w1) =>
        if is_libvirtError e then (Return acc, w1) else (Raise e, w1)
    end.
Proof.
  simpl. destruct (negb _ || negb _); [done|].
  unfold bind, try_except, ret.
  destruct (_get_expanded_cpu self m w) as [[cpu|e] w1]; simpl.
  - by rewrite append_security_spec.
  - by destruct (is_libvirtError e).
Qed.

Lemma security_loop_scan self modes : ∀ acc w,
  security_scan self modes acc w
    (security_loop self modes acc w).1 (security_loop self modes acc w).2.
Proof.
  induction modes as [|m modes IH]; intros acc w.
  - constructor.
  - rewrite security_loop_cons.
    destruct (negb _ || negb _) eqn:Hm.
    + apply scan_skip; [|apply IH].
      intros Hex%expanded_mode_test. congruence.
    + apply expanded_mode_test in Hm.
      destruct (_get_expanded_cpu self m w) as [[cpu|e] w1] eqn:Hcpu.
      * eapply scan_append; [done..|]. apply IH.
      * destruct (is_libvirtError e) eqn:He; simpl.
        -- destruct e; try done. by eapply scan_stop.
        -- by eapply scan_escape.
Qed.

Lemma security_scan_loop self modes acc w r w' :
  security_scan self modes acc w r w' →
  security_loop self modes acc w = (r, w').
Proof.
  induction 1 as [acc w|m modes acc w r w' Hm _ IH
                  |m modes acc w cpu w1 r w' Hm Hcpu _ IH
                  |m modes acc w msg w1 Hm Hcpu
                  |m modes acc w e w1 Hm Hcpu He];
    [done|rewrite security_loop_cons..].
  - destruct (negb _ || negb _) eqn:Hskip; [done|].
    by apply expanded_mode_test in Hskip.
  - by rewrite (proj2 (expanded_mode_test m) Hm), Hcpu.
  - by rewrite (proj2 (expanded_mode_test m) Hm), Hcpu.
  - by rewrite (proj2 (expanded_mode_test m) Hm), Hcpu, He.
Qed.

Lemma security_scan_no_libvirtError self modes acc w e w' :
  security_scan self modes acc w (Raise e) w' → is_libvirtError e = false.
Proof.
  intros H. remember (Raise e) as r eqn:Hr.
  induction H; try done; auto. by injection Hr as ->.
Qed.

(** C3: [get_cpu_security_features] scans the modes in order from an empty
    accumulator: a mode that is not named "host-model" or is not supported
    is skipped; for an expanded mode the names of the expanded features
    that lie in spec-ctrl, ssbd, ibpb, virt-ssbd are appended in the order
    reported; at the first expansion that raises [libvirtError] the scan
    ends, no later mode is looked at, and the names accumulated so far are
    returned.  The query itself never raises [libvirtError]. *)
Theorem get_cpu_security_features_scan self w :
  (∀ r w', get_cpu_security_features self w = (r, w') ↔
           security_scan self (_CPU.modes (DomainCapabilities.cpu self))
             [] w r w') ∧
  (∀ msg w',
     get_cpu_security_features self w ≠ (Raise (libvirtError msg), w')).
Proof.
  unfold get_cpu_security_features.
  pose proof (security_loop_scan self
                (_CPU.modes (DomainCapabilities.cpu self)) [] w) as Hscan.
  split.
  - intros r w'. split.
    + intros Heq. by rewrite Heq in Hscan.
    + apply security_scan_loop.
  - intros msg w' Heq. rewrite Heq in Hscan.
    by apply security_scan_no_libvirtError in Hscan.
Qed.

End expansion.

(** ** The theorems at concrete inputs *)

Import Fixture.

(** Deciding that no pattern of a table matches a path. *)
Lemma no_pattern_matches (items : list (string * list string)) (p : string) :
  forallb (λ ap, forallb (λ q, negb (Re.re_match q p)) ap.2) items = true →
  ∀ a pats q, (a, pats) ∈ items → q ∈ pats → Re.re_match q p = false.
Proof.
  intros Hall a pats q Hin Hq.
  rewrite forallb_forall in Hall.
  apply list_elem_of_In, Hall in Hin. simpl in Hin.
  rewrite forallb_forall in Hin.
  apply list_elem_of_In, Hin in Hq. by apply negb_true_iff.
Qed.

Lemma get_enum_found_or_KeyError_witness :
  get_enum (loader_block []) (Some "readonly")
    = Return (_Enum.Build (Some "readonly")
                [ _Value.Build "yes"; _Value.Build "no" ]) ∧
  get_enum repeated_block (Some "type")
    = Return (_Enum.Build (Some "type") [ _Value.Build "pflash" ]) ∧
  get_enum (loader_block []) (Some "bus") = Raise (KeyError (Some "bus")).
Proof.
  split; [|split].
  - apply (proj1 (proj2 (get_enum_found_or_KeyError
                           (loader_block []) (Some "readonly")))
             [ _Enum.Build (Some "type")
                 [ _Value.Build "rom"; _Value.Build "pflash" ] ] _ []);
      [reflexivity | reflexivity |].
    intros e' He'. by apply elem_of_nil in He'.
  - apply (proj1 (proj2 (get_enum_found_or_KeyError
                           repeated_block (Some "type")))
             [ _Enum.Build (Some "type") [ _Value.Build "rom" ];
               _Enum.Build (Some "readonly") [ _Value.Build "yes" ] ] _ []);
      [reflexivity | reflexivity |].
    intros e' He'. by apply elem_of_nil in He'.
  - apply (proj2 (proj2 (get_enum_found_or_KeyError
                           (loader_block []) (Some "bus")))).
    intros e He. apply list_elem_of_In in He. simpl in He.
    destruct He as [<- | [<- | []]]; simpl; discriminate.
Defined.

Lemma get_cpu_models_concat_witness :
  get_cpu_models caps_x86_64 = [ "A"; "C" ].
Proof.
  apply (proj2 (get_cpu_models_concat caps_x86_64)
           (mode "custom" (Some true) spec_models));
    reflexivity.
Defined.

Lemma supports_safe_host_model_per_mode_witness :
  ∃ l, supports_safe_host_model caps_host_models = Return l ∧
       length l = 4 ∧
       Forall2 (λ m v,
                  (v = PyBool true ↔ safe_host_model_holds m) ∧
                  (truthy v = true ↔ safe_host_model_holds m) ∧
                  (v = PyNone ↔ _CPUMode.name m = Some "host-model" ∧
                                _CPUMode.supported m = None) ∧
                  (v = PyBool false ↔
                     ¬ safe_host_model_holds m ∧
                     ¬ (_CPUMode.name m = Some "host-model" ∧
                        _CPUMode.supported m = None)))
         host_models l.
Proof.
  apply (supports_safe_host_model_per_mode caps_host_models).
  intros m Hm Hname Hsup. apply list_elem_of_In in Hm. simpl in Hm.
  destruct Hm as [<- | [<- | [<- | [<- | []]]]]; simpl in *; discriminate.
Defined.

(** C4 as stated fails on a host-model mode without a [supported]
    attribute: its entry is [None], so the list is not a list of
    booleans. *)
Lemma supports_safe_host_model_not_booleans :
  ¬ (∀ self : DomainCapabilities.t unit,
       (∀ m, m ∈ _CPU.modes (DomainCapabilities.cpu self) →
             _CPUMode.name m = Some "host-model" →
             _CPUMode.supported m = Some true →
             _CPUMode.models m ≠ []) →
       ∃ bs : list bool,
         supports_safe_host_model self = Return (map PyBool bs)).
Proof.
  intros Hclaim. destruct (Hclaim caps_host_models) as [bs Hbs].
  - intros m Hm Hname Hsup. apply list_elem_of_In in Hm. simpl in Hm.
    destruct Hm as [<- | [<- | [<- | [<- | []]]]]; simpl in *; discriminate.
  - vm_compute in Hbs. destruct bs; discriminate.
Qed.

Lemma supports_safe_host_model_IndexError_witness :
  supports_safe_host_model caps_no_models = Raise IndexError ∧
  ∃ l, supports_safe_host_model caps_host_models = Return l ∧ length l = 4.
Proof.
  split.
  - apply (proj1 (supports_safe_host_model_IndexError caps_no_models)).
    exists host_model. repeat split.
    apply list_elem_of_further, list_elem_of_here.
  - apply (proj2 (supports_safe_host_model_IndexError caps_host_models)).
    intros m Hm (Hname & Hsup & Hnil). apply list_elem_of_In in Hm.
    simpl in Hm.
    destruct Hm as [<- | [<- | [<- | [<- | []]]]]; simpl in *; discriminate.
Defined.

Lemma find_uefi_path_for_arch_earliest_pattern_witness :
  find_uefi_path_for_arch caps_x86_64 = Some "/opt/OVMF_CODE.fd" ∧
  Re.re_match ".*ovmf.*" "/usr/share/ovmf/plain.bin" = true ∧
  find_uefi_path_for_arch caps_s390x = None.
Proof.
  split; [|split].
  - apply (proj1 (proj2 (find_uefi_path_for_arch_earliest_pattern caps_x86_64)
                    "x86_64"
                    [ ".*OVMF_CODE\.fd"; ".*ovmf-x64/OVMF.*\.fd";
                      ".*ovmf-x86_64-.*"; ".*ovmf.*"; ".*OVMF.*" ]
                    eq_refl
                    (list_elem_of_further _ _ _ (list_elem_of_here _ _)))).
    exists [], ".*OVMF_CODE\.fd",
      [ ".*ovmf-x64/OVMF.*\.fd"; ".*ovmf-x86_64-.*"; ".*ovmf.*"; ".*OVMF.*" ],
      [ "/usr/share/ovmf/plain.bin" ], [].
    split; [reflexivity|]. split; [reflexivity|].
    split; [vm_compute; reflexivity|]. split.
    + intros w Hw. apply list_elem_of_singleton in Hw as ->.
      vm_compute; reflexivity.
    + intros q w Hq. by apply elem_of_nil in Hq.
  - vm_compute; reflexivity.
  - apply (proj1 (find_uefi_path_for_arch_earliest_pattern caps_s390x)).
    intros a [= <-] Ha. apply list_elem_of_In in Ha. simpl in Ha.
    destruct Ha as [Ha | [Ha | [Ha | [Ha | []]]]]; discriminate.
Defined.

(** The example of the specification: the OVMF path, not the custom one. *)
Example find_uefi_path_for_arch_spec_example :
  find_uefi_path_for_arch caps_spec_example
    = Some "/usr/share/ovmf/OVMF_CODE.fd".
Proof. vm_compute; reflexivity. Qed.

Lemma label_for_firmware_path_cases_witness :
  label_for_firmware_path caps_x86_64 None = "BIOS" ∧
  label_for_firmware_path caps_x86_64 (Some EmptyString) = "BIOS" ∧
  label_for_firmware_path caps_aarch64 None = "None" ∧
  label_for_firmware_path caps_x86_64 (Some "/usr/share/AAVMF/AAVMF_CODE.fd")
    = "UEFI aarch64: /usr/share/AAVMF/AAVMF_CODE.fd" ∧
  label_for_firmware_path caps_x86_64 (Some "/weird/path")
    = "Custom: /weird/path".
Proof.
  destruct (label_for_firmware_path_cases caps_x86_64) as [Habsent Hpresent].
  split; [|split; [|split; [|split]]].
  - apply (proj1 (Habsent None (or_introl eq_refl))). right. reflexivity.
  - apply (proj1 (Habsent (Some EmptyString) (or_intror eq_refl))).
    right. reflexivity.
  - apply (proj2 (proj1 (label_for_firmware_path_cases caps_aarch64)
                    None (or_introl eq_refl))); discriminate.
  - apply (proj1 (Hpresent "/usr/share/AAVMF/AAVMF_CODE.fd"
                    ltac:(discriminate))
             [ ("i686", [ ".*ovmf-ia32.*" ]);
               ("x86_64", [ ".*OVMF_CODE\.fd"; ".*ovmf-x64/OVMF.*\.fd";
                            ".*ovmf-x86_64-.*"; ".*ovmf.*"; ".*OVMF.*" ]) ]
             "aarch64"
             [ ".*AAVMF_CODE\.fd"; ".*aarch64/QEMU_EFI.*"; ".*aarch64.*" ]
             [ ("armv7l", [ ".*arm/QEMU_EFI.*" ]) ]
             ".*AAVMF_CODE\.fd").
    + reflexivity.
    + apply no_pattern_matches. vm_compute; reflexivity.
    + apply list_elem_of_here.
    + vm_compute; reflexivity.
  - apply (proj2 (Hpresent "/weird/path" ltac:(discriminate))).
    apply no_pattern_matches. vm_compute; reflexivity.
Defined.

(** C6 as stated fails on the empty string: it is a path that is present
    and that no pattern of the table matches, yet the label is "BIOS", not
    "Custom: ". *)
Lemma label_for_firmware_path_empty_string :
  ¬ (∀ (self : DomainCapabilities.t unit) (p : string),
       (∀ a pats q, (a, pats) ∈ _uefi_arch_patterns → q ∈ pats →
          Re.re_match q p = false) →
       label_for_firmware_path self (Some p) = "Custom: " +:+ p).
Proof.
  intros Hclaim.
  assert (label_for_firmware_path caps_x86_64 (Some EmptyString)
          = "Custom: " +:+ EmptyString) as Hlabel.
  { apply Hclaim. apply no_pattern_matches. vm_compute; reflexivity. }
  vm_compute in Hlabel. discriminate.
Qed.

Lemma build_from_params_stub_witness :
  build_from_params (XML := Fixture.xml) conn_unsupported
      (Some "/usr/bin/qemu-kvm") (Some "x86_64") (Some "pc") (Some "kvm")
      (BuildWorld tt [])
    = (Return (stub conn_unsupported),
       BuildWorld tt [ check_support SUPPORT_CONN_DOMAIN_CAPABILITIES ]) ∧
  build_from_params (XML := Fixture.xml) conn_fetch_fails
      (Some "/usr/bin/qemu-kvm") (Some "x86_64") (Some "pc") (Some "kvm")
      (BuildWorld tt [])
    = (Return (stub conn_fetch_fails),
       BuildWorld tt
         [ check_support SUPPORT_CONN_DOMAIN_CAPABILITIES;
           getDomainCapabilities (Some "/usr/bin/qemu-kvm") (Some "x86_64")
             (Some "pc") (Some "kvm") ]).
Proof.
  split.
  - apply (proj1 (build_from_params_stub (XML := Fixture.xml)
                    conn_unsupported _ _ _ _ (BuildWorld tt []))
             (PyBool false) tt);
      reflexivity.
  - apply (proj1 (proj2 (build_from_params_stub (XML := Fixture.xml)
                           conn_fetch_fails _ _ _ _ (BuildWorld tt [])))
             (PyBool true) tt
             (OtherException "OSError" "connection reset") tt);
      reflexivity.
Defined.

Lemma build_from_params_empty_document_witness :
  build_from_params (XML := Fixture.xml) conn_empty_document
      (Some "/usr/bin/qemu-kvm") (Some "x86_64") (Some "pc") (Some "kvm")
      (BuildWorld tt [])
    = (Return (stub conn_empty_document),
       BuildWorld tt
         [ check_support SUPPORT_CONN_DOMAIN_CAPABILITIES;
           getDomainCapabilities (Some "/usr/bin/qemu-kvm") (Some "x86_64")
             (Some "pc") (Some "kvm") ]).
Proof.
  apply (proj1 (build_from_params_empty_document (XML := Fixture.xml)
                  conn_empty_document _ _ _ _ (BuildWorld tt [])
                  (PyBool true) tt (PyStr EmptyString) tt
                  eq_refl eq_refl eq_refl eq_refl)).
Defined.


(** The newer call succeeds: the older one is not issued. *)
Example _get_expanded_cpu_newer_only :
  _get_expanded_cpu (XML := Fixture.xml) caps_newer host_model
      (BuildWorld tt [])
    = (Return
         (DomainCpu.Build
            [ _CPUFeature.Build (Some "ssbd") (Some "require") ]),
       BuildWorld tt [ newer_call ]).
Proof. vm_compute; reflexivity. Qed.

(** The newer call fails with an exception that is no hypervisor error: it
    escapes, and the older call is not issued. *)
Example _get_expanded_cpu_no_retry :
  _get_expanded_cpu (XML := Fixture.xml) caps_no_attribute host_model
      (BuildWorld tt [])
    = (Raise (OtherException "AttributeError" "no such method"),
       BuildWorld tt [ newer_call ]).
Proof. vm_compute; reflexivity. Qed.


Example _get_expanded_cpu_TypeError :
  _get_expanded_cpu (XML := xml_attrib_TypeError) caps_newer host_model
      (BuildWorld tt [])
    = (Raise (OtherException "TypeError" "attrib must be dict, not NoneType"),
       BuildWorld tt []).
Proof. vm_compute; reflexivity. Qed.

(** Two expansions succeed, the third fails: the names of the first two
    are returned and the fourth host-model mode is never expanded. *)
Lemma get_cpu_security_features_scan_witness :
  security_scan (XML := Fixture.xml) caps_baseline
    (_CPU.modes (DomainCapabilities.cpu caps_baseline)) [] (BuildWorld 0 [])
    (Return [ "spec-ctrl"; "ibpb"; "ssbd" ])
    (BuildWorld 3
       [ newer_call; older_call; newer_call; older_call;
         newer_call; older_call ]).
Proof.
  apply (proj1 (proj1 (get_cpu_security_features_scan (XML := Fixture.xml)
                         caps_baseline (BuildWorld 0 [])) _ _)).
  vm_compute; reflexivity.
Defined.

Example get_cpu_security_features_partial :
  get_cpu_security_features (XML := Fixture.xml) caps_baseline
      (BuildWorld 0 [])
    = (Return [ "spec-ctrl"; "ibpb"; "ssbd" ],
       BuildWorld 3
         [ newer_call; older_call; newer_call; older_call;
           newer_call; older_call ]).
Proof. vm_compute; reflexivity. Qed.

(** A failure on the first expansion gives the empty list. *)
Example get_cpu_security_features_first_fails :
  get_cpu_security_features (XML := Fixture.xml) caps_baseline
      (BuildWorld 2 [])
    = (Return [], BuildWorld 3 [ newer_call; older_call ]).
Proof. vm_compute; reflexivity. Qed.

(** * Further properties of the module *)

Import FixtureMore.

(** ** Looking up modes and models by name *)

Lemma find_first {A} (f : A → bool) (l : list A) :
  (∀ x, List.find f l = Some x ↔
        ∃ pre post, l = pre ++ x :: post ∧ f x = true ∧
                    ∀ y, y ∈ pre → f y = false) ∧
  (List.find f l = None ↔ ∀ y, y ∈ l → f y = false).
Proof.
  induction l as [|a l [IHs IHn]]; simpl.
  - split.
    + intros x. split; [done|]. intros (pre & post & Hnil & _).
      by destruct pre.
    + split; [intros _ y Hy; by apply elem_of_nil in Hy | done].
  - destruct (f a) eqn:Ha; split.
    + intros x. split.
      * intros [= <-]. exists [], l. repeat split; [done|].
        intros y Hy. by apply elem_of_nil in Hy.
      * intros ([|b pre] & post & Heq & Hx & Hpre); simpl in Heq.
        -- by injection Heq as ->.
        -- injection Heq as <- _. rewrite Hpre in Ha; [done | by left].
    + split; [done|]. intros Hall. rewrite Hall in Ha; [done | by left].
    + intros x. rewrite IHs. split.
      * intros (pre & post & -> & Hx & Hpre). exists (a :: pre), post.
        repeat split; [done|]. intros y [-> | Hy]%elem_of_cons; auto.
      * intros ([|b pre] & post & Heq & Hx & Hpre); simpl in Heq.
        -- injection Heq as -> _. congruence.
        -- injection Heq as <- ->. exists pre, post.
           repeat split; [done|]. intros y Hy. apply Hpre. by right.
    + rewrite IHn. split.
      * intros Hall y [-> | Hy]%elem_of_cons; auto.
      * intros Hall y Hy. apply Hall. by right.
Qed.

Lemma first_mode_find modes name :
  first_mode modes name
    = List.find (λ m, py_eq (_CPUMode.name m) name) modes.
Proof. induction modes as [|m modes IH]; simpl; [done | by rewrite IH]. Qed.

Lemma first_model_find models name :
  first_model models name
    = List.find (λ x, String.eqb (_CPUModel.model x) name) models.
Proof. induction models as [|x models IH]; simpl; [done | by rewrite IH]. Qed.

(** X1: [get_mode] returns the first mode of the tree, in document order,
    whose name is the one asked for, and [None] exactly when no mode has
    that name. *)
Theorem get_mode_first (self : _CPU.t) (name : string) :
  (∀ m, get_mode self name = Some m ↔
        ∃ pre post, _CPU.modes self = pre ++ m :: post ∧
                    _CPUMode.name m = Some name ∧
                    ∀ m', m' ∈ pre → _CPUMode.name m' ≠ Some name) ∧
  (get_mode self name = None ↔
     ∀ m, m ∈ _CPU.modes self → _CPUMode.name m ≠ Some name).
Proof.
  unfold get_mode. rewrite first_mode_find.
  destruct (find_first (λ m, py_eq (_CPUMode.name m) name)
              (_CPU.modes self)) as [Hs Hn].
  split.
  - intros m. rewrite Hs. split.
    + intros (pre & post & Heq & Hm%py_eq_true & Hpre).
      exists pre, post. repeat split; [done..|].
      intros m' Hm'. by apply py_eq_false, Hpre.
    + intros (pre & post & Heq & Hm%py_eq_true & Hpre).
      exists pre, post. repeat split; [done..|].
      intros m' Hm'. by apply py_eq_false, Hpre.
  - rewrite Hn. split.
    + intros Hall m Hm. by apply py_eq_false, Hall.
    + intros Hall m Hm. by apply py_eq_false, Hall.
Qed.

(** X2: [get_model] returns the first model of the mode, in document
    order, whose text is the name asked for, and [None] exactly when the
    mode has no model of that name. *)
Theorem get_model_first (self : _CPUMode.t) (name : string) :
  (∀ x, get_model self name = Some x ↔
        ∃ pre post, _CPUMode.models self = pre ++ x :: post ∧
                    _CPUModel.model x = name ∧
                    ∀ y, y ∈ pre → _CPUModel.model y ≠ name) ∧
  (get_model self name = None ↔
     ∀ y, y ∈ _CPUMode.models self → _CPUModel.model y ≠ name).
Proof.
  unfold get_model. rewrite first_model_find.
  destruct (find_first (λ x, String.eqb (_CPUModel.model x) name)
              (_CPUMode.models self)) as [Hs Hn].
  split.
  - intros x. rewrite Hs. split.
    + intros (pre & post & Heq & Hx%String.eqb_eq & Hpre).
      exists pre, post. repeat split; [done..|].
      intros y Hy. by apply String.eqb_neq, Hpre.
    + intros (pre & post & Heq & Hx%String.eqb_eq & Hpre).
      exists pre, post. repeat split; [done..|].
      intros y Hy. by apply String.eqb_neq, Hpre.
  - rewrite Hn. split.
    + intros Hall y Hy. by apply String.eqb_neq, Hall.
    + intros Hall y Hy. by apply String.eqb_neq, Hall.
Qed.

(** ** Enum names and enum lookup *)

Lemma enum_names_keys (B : _CapsBlock.t) :
  (map (λ e, (_Enum.name e, e)) (_CapsBlock.enums B)).*1 = enum_names B.
Proof.
  unfold enum_names.
  induction (_CapsBlock.enums B) as [|e l IH]; simpl; [done | by f_equal].
Qed.

(** The last element of a list with a given name. *)
Lemma last_named (l : list _Enum.t) (n : option string) :
  n ∈ map _Enum.name l →
  ∃ l1 e l2, l = l1 ++ e :: l2 ∧ _Enum.name e = n ∧
             ∀ e', e' ∈ l2 → _Enum.name e' ≠ n.
Proof.
  induction l as [|e l IH] using rev_ind.
  - intros Hn. by apply elem_of_nil in Hn.
  - rewrite map_app. simpl. intros Hn.
    destruct (decide (_Enum.name e = n)) as [He | He].
    + exists l, e, []. repeat split; [done|].
      intros e' He'. by apply elem_of_nil in He'.
    + apply elem_of_app in Hn as [Hn | Hn%list_elem_of_singleton]; [|done].
      destruct (IH Hn) as (l1 & e0 & l2 & -> & He0 & Hl2).
      exists l1, e0, (l2 ++ [e]). rewrite <- app_assoc. repeat split; [done|].
      intros e' [He' | ->%list_elem_of_singleton]%elem_of_app; auto.
Qed.

(** X3: [get_enum(n)] succeeds exactly when [n] is one of [enum_names()],
    and the enum it returns is an enum of the block that carries the name
    [n]: testing the name first makes the lookup safe. *)
Theorem get_enum_iff_enum_names (B : _CapsBlock.t) (n : option string) :
  ((∃ e, get_enum B n = Return e) ↔ n ∈ enum_names B) ∧
  (∀ e, get_enum B n = Return e →
        e ∈ _CapsBlock.enums B ∧ _Enum.name e = n) ∧
  (n ∉ enum_names B → get_enum B n = Raise (KeyError n)).
Proof.
  unfold get_enum.
  destruct (dict _ !! n) as [e|] eqn:Hd.
  - pose proof Hd as Hin.
    apply dict_lookup_Some, list_elem_of_fmap in Hin as (e' & Heq & He').
    injection Heq as Hn ->. split; [|split].
    + split; [intros _ | eauto].
      rewrite Hn. unfold enum_names. by apply (list_elem_of_fmap_2 _ _ _ He').
    + by intros ? [= <-].
    + intros Hnot. destruct Hnot. rewrite Hn. unfold enum_names.
      by apply (list_elem_of_fmap_2 _ _ _ He').
  - pose proof Hd as Hnone. apply dict_lookup_None in Hnone.
    rewrite enum_names_keys in Hnone. split; [|split].
    + split; [by intros [? ?] | done].
    + done.
    + done.
Qed.

(** X4: [supports_uefi_xml] never raises: the enum lookup is made only
    after the name test.  It is true exactly when the loader block has an
    enum named "readonly" and the last such enum lists the value "yes". *)
Theorem supports_uefi_xml_total {St} (self : DomainCapabilities.t St) :
  ∃ b, supports_uefi_xml self = Return b ∧
       (b = true ↔
        ∃ l1 e l2,
          _CapsBlock.enums (_OS.loader (DomainCapabilities.os self))
            = l1 ++ e :: l2 ∧
          _Enum.name e = Some "readonly" ∧
          (∀ e', e' ∈ l2 → _Enum.name e' ≠ Some "readonly") ∧
          "yes" ∈ _Enum.get_values e).
Proof.
  unfold supports_uefi_xml.
  set (loader := _OS.loader (DomainCapabilities.os self)).
  assert (∀ l1 e l2, _CapsBlock.enums loader = l1 ++ e :: l2 →
            _Enum.name e = Some "readonly" →
            (∀ e', e' ∈ l2 → _Enum.name e' ≠ Some "readonly") →
            get_enum loader (Some "readonly") = Return e) as Hlast.
  { intros l1 e l2 Heq Hn Hl2. unfold get_enum. rewrite Heq, map_app. simpl.
    rewrite <- Hn at 1. rewrite dict_lookup_last; [done|].
    rewrite Hn. by apply enum_pairs_keys. }
  case_bool_decide as Hin.
  - destruct (last_named _ _ Hin) as (l1 & e & l2 & Heq & Hn & Hl2).
    rewrite (Hlast l1 e l2 Heq Hn Hl2). simpl.
    eexists. split; [done|]. rewrite bool_decide_eq_true. split.
    + intros Hyes. by exists l1, e, l2.
    + intros (l1' & e' & l2' & Heq' & Hn' & Hl2' & Hyes).
      pose proof (Hlast l1' e' l2' Heq' Hn' Hl2') as Hget.
      rewrite (Hlast l1 e l2 Heq Hn Hl2) in Hget. by injection Hget as ->.
  - exists false. split; [done|]. split; [done|].
    intros (l1 & e & l2 & Heq & Hn & _). destruct Hin.
    unfold enum_names. fold loader. rewrite Heq, map_app, <- Hn.
    apply elem_of_app. right. by left.
Qed.

Lemma get_mode_first_witness :
  get_mode cpu_tree "host-model"
    = Some (Fixture.mode "host-model" (Some false) []) ∧
  get_mode cpu_tree "maximum" = None.
Proof.
  split.
  - apply (proj1 (get_mode_first cpu_tree "host-model")).
    exists [ Fixture.mode "custom" (Some true) spec_models ],
      [ Fixture.mode "host-model" (Some true)
          [ _CPUModel.Build "A" None (Some "forbid") ] ].
    split; [reflexivity|]. split; [reflexivity|].
    intros m' ->%list_elem_of_singleton. discriminate.
  - apply (proj2 (get_mode_first cpu_tree "maximum")).
    intros m Hm. apply list_elem_of_In in Hm. simpl in Hm.
    destruct Hm as [<- | [<- | [<- | []]]]; discriminate.
Defined.

Lemma get_model_first_witness :
  get_model (Fixture.mode "custom" (Some true) spec_models) "B"
    = Some (_CPUModel.Build "B" (Some "no") None) ∧
  get_model (Fixture.mode "custom" (Some true) spec_models) "Z" = None.
Proof.
  split.
  - apply (proj1 (get_model_first _ "B")).
    exists [ _CPUModel.Build "A" (Some "yes") None ],
      [ _CPUModel.Build "C" None None ].
    split; [reflexivity|]. split; [reflexivity|].
    intros y ->%list_elem_of_singleton. discriminate.
  - apply (proj2 (get_model_first _ "Z")).
    intros y Hy. apply list_elem_of_In in Hy. simpl in Hy.
    destruct Hy as [<- | [<- | [<- | []]]]; discriminate.
Defined.

Lemma get_enum_iff_enum_names_witness :
  (∃ e, get_enum repeated_block (Some "type") = Return e) ∧
  get_enum repeated_block (Some "bus") = Raise (KeyError (Some "bus")).
Proof.
  split.
  - apply (proj1 (get_enum_iff_enum_names repeated_block (Some "type"))).
    apply list_elem_of_here.
  - apply (proj2 (proj2 (get_enum_iff_enum_names repeated_block
                           (Some "bus")))).
    intros Hin. apply list_elem_of_In in Hin. simpl in Hin.
    destruct Hin as [Hin | [Hin | [Hin | []]]]; discriminate.
Defined.

Lemma supports_uefi_xml_total_witness :
  ∃ b, supports_uefi_xml caps_x86_64 = Return b ∧ b = true.
Proof.
  destruct (supports_uefi_xml_total caps_x86_64) as (b & Hb & Hiff).
  exists b. split; [exact Hb|]. apply Hiff.
  exists [ _Enum.Build (Some "type")
             [ _Value.Build "rom"; _Value.Build "pflash" ] ],
    (_Enum.Build (Some "readonly") [ _Value.Build "yes"; _Value.Build "no" ]),
    [].
  split; [reflexivity|]. split; [reflexivity|]. split.
  - intros e' He'. by apply elem_of_nil in He'.
  - apply list_elem_of_here.
Defined.

(** ** A found firmware path and its label *)

Lemma table_get_elem {V} (d : list (string * V)) key v :
  table_get d key = Some v → ∃ a, key = Some a ∧ (a, v) ∈ d.
Proof.
  induction d as [|[k' v'] d IH]; simpl; [done|].
  destruct (py_eq key k') eqn:Hk.
  - apply py_eq_true in Hk. intros [= <-]. exists k'. split; [done | by left].
  - intros (a & Ha & Hin)%IH. exists a. split; [done | by right].
Qed.

Lemma label_items_form items path label :
  label_items items path = Some label →
  ∃ a, a ∈ items.*1 ∧ label = "UEFI " +:+ a +:+ ": " +:+ path.
Proof.
  induction items as [|[a pats] items IH]; simpl; [done|].
  destruct (label_patterns a pats path) as [l|] eqn:Hl.
  - intros [= <-]. exists a. split; [by left|].
    clear IH. induction pats as [|q pats IHp]; simpl in Hl; [done|].
    destruct (Re.re_match q path); [by injection Hl as <- | by apply IHp].
  - intros (a' & Ha' & ->)%IH. exists a'. split; [by right | done].
Qed.

(** X5: a path that [find_uefi_path_for_arch] returns is one of the loader
    values of the instance, whose arch then is one [arch_can_uefi] knows,
    and [label_for_firmware_path] gives that path a "UEFI <arch>: <path>"
    label for an architecture of the table, never the BIOS, None or Custom
    label. *)
Theorem find_uefi_path_labelled_UEFI {St} (self : DomainCapabilities.t St)
    (v : string) :
  find_uefi_path_for_arch self = Some v →
  arch_can_uefi self = true ∧
  v ∈ map _Value.value
        (_CapsBlock.values (_OS.loader (DomainCapabilities.os self))) ∧
  ∃ a, a ∈ _uefi_arch_patterns.*1 ∧
       label_for_firmware_path self (Some v)
         = "UEFI " +:+ a +:+ ": " +:+ v.
Proof.
  unfold find_uefi_path_for_arch.
  destruct (arch_can_uefi self); [|done]. cbn [negb].
  destruct (table_get _uefi_arch_patterns (DomainCapabilities.arch self))
    as [patterns|] eqn:Hget; [|done].
  intros (pre & p & post & -> & Hp & _)%find_pattern_Some.
  apply find_path_Some in Hp as (vpre & vpost & Hv & Hm & _).
  apply table_get_elem in Hget as (a & _ & Hin).
  split; [done|]. split.
  { rewrite Hv. apply elem_of_app. right. by left. }
  assert (label_items _uefi_arch_patterns v ≠ None) as Hsome.
  { intros Hnone. rewrite label_items_None in Hnone.
    rewrite (Hnone a _ p Hin) in Hm; [done|].
    apply elem_of_app. right. by left. }
  destruct v as [|c v].
  { rewrite (no_pattern_matches _uefi_arch_patterns EmptyString
               ltac:(by vm_compute) a _ p Hin) in Hm; [done|].
    apply elem_of_app. right. by left. }
  unfold label_for_firmware_path.
  destruct (label_items _uefi_arch_patterns (String c v)) as [l|] eqn:Hl;
    [|done].
  by apply label_items_form in Hl.
Qed.

Lemma find_uefi_path_labelled_UEFI_witness :
  find_uefi_path_for_arch caps_ia32_path
    = Some "/usr/share/edk2.git/ovmf-ia32/OVMF_CODE-pure-efi.fd" ∧
  ∃ a, a ∈ _uefi_arch_patterns.*1 ∧
       label_for_firmware_path caps_ia32_path
         (Some "/usr/share/edk2.git/ovmf-ia32/OVMF_CODE-pure-efi.fd")
       = "UEFI " +:+ a +:+
         ": /usr/share/edk2.git/ovmf-ia32/OVMF_CODE-pure-efi.fd".
Proof.
  split; [vm_compute; reflexivity|].
  apply (find_uefi_path_labelled_UEFI caps_ia32_path
           "/usr/share/edk2.git/ovmf-ia32/OVMF_CODE-pure-efi.fd").
  vm_compute; reflexivity.
Defined.

(** The architecture of the label is the one of the first matching pattern
    of the table, which need not be the arch of the instance. *)
Example label_of_found_path_other_arch :
  label_for_firmware_path caps_ia32_path
    (find_uefi_path_for_arch caps_ia32_path)
  = "UEFI i686: /usr/share/edk2.git/ovmf-ia32/OVMF_CODE-pure-efi.fd".
Proof. vm_compute; reflexivity. Qed.

(** ** More on the CPU queries *)

Lemma comprehension_length {A B} (f : A → outcome B) (l : list A) :
  ∀ bs, comprehension f l = Return bs → length bs = length l.
Proof.
  induction l as [|a l IH]; simpl; intros bs.
  - by intros [= <-].
  - destruct (f a) as [b|e]; simpl; [|done].
    destruct (comprehension f l) as [bs'|e]; simpl; [|done].
    intros [= <-]. simpl. by rewrite (IH bs').
Qed.

(** X6: whenever [supports_safe_host_model] returns, the list has one
    entry per mode of the CPU tree, so it is the empty list exactly when
    the tree has no mode: used as a condition, the returned value is true
    for every CPU tree with a mode, whether or not an entry is true. *)
Theorem supports_safe_host_model_nonempty {St}
    (self : DomainCapabilities.t St) (l : list pyval) :
  supports_safe_host_model self = Return l →
  length l = length (_CPU.modes (DomainCapabilities.cpu self)) ∧
  (l = [] ↔ _CPU.modes (DomainCapabilities.cpu self) = []).
Proof.
  intros Hl%comprehension_length. split; [done|].
  destruct l, (_CPU.modes (DomainCapabilities.cpu self)); done.
Qed.

Lemma supports_safe_host_model_nonempty_witness :
  supports_safe_host_model caps_custom_only = Return [ PyBool false ] ∧
  ([ PyBool false ] = [] ↔
   _CPU.modes (DomainCapabilities.cpu caps_custom_only) = []).
Proof.
  split; [reflexivity|].
  apply (supports_safe_host_model_nonempty caps_custom_only
           [ PyBool false ] eq_refl).
Defined.

Lemma elem_of_append_usable ms : ∀ acc n,
  n ∈ append_usable ms acc ↔
  n ∈ acc ∨ ∃ x, x ∈ ms ∧ _CPUModel.usable x ≠ Some "no" ∧
                 _CPUModel.model x = n.
Proof.
  intros acc n. rewrite append_usable_spec, elem_of_app.
  apply or_iff_compat_l.
  change (n ∈ _CPUModel.model <$>
            filter (λ x, _CPUModel.usable x ≠ Some "no") ms ↔
          ∃ x, x ∈ ms ∧ _CPUModel.usable x ≠ Some "no" ∧
               _CPUModel.model x = n).
  rewrite list_elem_of_fmap. split.
  - intros (x & -> & [Hu Hx]%list_elem_of_filter). eauto.
  - intros (x & Hx & Hu & <-). exists x. split; [done|].
    by apply list_elem_of_filter.
Qed.

Lemma elem_of_append_custom modes : ∀ acc n,
  n ∈ append_custom modes acc ↔
  n ∈ acc ∨ ∃ m x, m ∈ modes ∧ _CPUMode.name m = Some "custom" ∧
                   _CPUMode.supported m = Some true ∧
                   x ∈ _CPUMode.models m ∧
                   _CPUModel.usable x ≠ Some "no" ∧ _CPUModel.model x = n.
Proof.
  induction modes as [|m modes IH]; intros acc n; simpl.
  - split; [auto|]. intros [? | (? & ? & []%elem_of_nil & _)]; done.
  - destruct (py_eq _ _ && truthy _) eqn:Hm.
    + apply andb_true_iff in Hm as [Hn%py_eq_true Hs%truthy_of_flag].
      rewrite IH, elem_of_append_usable. split.
      * intros [[? | (x & ? & ? & ?)] | (m' & x & ? & ?)]; [by left|..].
        -- right. exists m, x. repeat split; [by left | done..].
        -- right. exists m', x. split; [by right | done].
      * intros [? | (m' & x & [-> | ?]%elem_of_cons & ? & ? & ? & ? & ?)];
          [by left; left|..].
        -- left. right. by exists x.
        -- right. by exists m', x.
    + rewrite IH. apply or_iff_compat_l. split.
      * intros (m' & x & ? & ?). exists m', x. split; [by right | done].
      * intros (m' & x & [-> | ?]%elem_of_cons & Hn & Hs & ?).
        -- apply py_eq_true in Hn. apply truthy_of_flag in Hs.
           by rewrite Hn, Hs in Hm.
        -- by exists m', x.
Qed.

(** X7: a name is listed by [get_cpu_models] exactly when it is the text
    of a model whose [usable] attribute is not "no" in some supported mode
    named "custom"; with no such mode the list is empty. *)
Theorem get_cpu_models_elem {St} (self : DomainCapabilities.t St)
    (n : string) :
  n ∈ get_cpu_models self ↔
  ∃ m x, m ∈ _CPU.modes (DomainCapabilities.cpu self) ∧
         _CPUMode.name m = Some "custom" ∧
         _CPUMode.supported m = Some true ∧
         x ∈ _CPUMode.models m ∧
         _CPUModel.usable x ≠ Some "no" ∧ _CPUModel.model x = n.
Proof.
  unfold get_cpu_models. rewrite elem_of_append_custom. split.
  - by intros [[]%elem_of_nil | ?].
  - by right.
Qed.

Lemma get_cpu_models_elem_witness :
  "C" ∈ get_cpu_models caps_custom_only ∧
  "B" ∉ get_cpu_models caps_host_models.
Proof.
  split.
  - apply (proj2 (get_cpu_models_elem caps_custom_only "C")).
    exists (Fixture.mode "custom" (Some true) spec_models),
      (_CPUModel.Build "C" None None).
    repeat split; [apply list_elem_of_here | | discriminate].
    apply list_elem_of_further, list_elem_of_further, list_elem_of_here.
  - intros (m & x & Hm & Hn & Hs & Hx & _)%
      (proj1 (get_cpu_models_elem caps_host_models "B")).
    apply list_elem_of_In in Hm. simpl in Hm.
    destruct Hm as [<- | [<- | [<- | [<- | []]]]]; try discriminate.
    by apply elem_of_nil in Hx.
Defined.

(** ** What [build_from_params] asks of the connection *)

Section building.
Context {St : Type} `{XML : !XMLBuilder St}.
Implicit Types (conn : Conn St) (w : world St).

Lemma build_from_params_run conn emulator arch machine hvtype w :
  build_from_params conn emulator arch machine hvtype w =
  let check := check_support SUPPORT_CONN_DOMAIN_CAPABILITIES in
  let fetch := getDomainCapabilities emulator arch machine hvtype in
  match answer conn (hv w) check with
  | (Raise e, s1) => (Raise e, BuildWorld s1 (calls w ++ [check]))
  | (Return sup, s1) =>
      if truthy sup then
        match answer conn s1 fetch with
        | (Return xml, s2) =>
            (if truthy xml then parsexml conn xml else Return (stub conn),
             BuildWorld s2 (calls w ++ [check; fetch]))
        | (Raise _, s2) =>
            (Return (stub conn), BuildWorld s2 (calls w ++ [check; fetch]))
        end
      else (Return (stub conn), BuildWorld s1 (calls w ++ [check]))
  end.
Proof.
  unfold build_from_params, bind, try_except, call, ret, lift. simpl.
  destruct (answer conn (hv w) _) as [[sup|e] s1]; [|done].
  destruct (truthy sup); [|done]. simpl.
  destruct (answer conn s1 _) as [[xml|e] s2]; simpl;
    rewrite <- app_assoc; [by destruct (truthy xml) | done].
Qed.

(** X8: [build_from_params] asks the connection for the support check
    first; it fetches the document exactly when that check returned a true
    value, and issues no other call.  When the check itself raises, that
    exception escapes and nothing is fetched. *)
Theorem build_from_params_calls conn emulator arch machine hvtype w :
  let check := check_support SUPPORT_CONN_DOMAIN_CAPABILITIES in
  let fetch := getDomainCapabilities emulator arch machine hvtype in
  let run := build_from_params conn emulator arch machine hvtype w in
  match answer conn (hv w) check with
  | (Return sup, s1) =>
      calls run.2 = calls w ++ (if truthy sup then [check; fetch] else [check])
      ∧ hv run.2 = (if truthy sup then (answer conn s1 fetch).2 else s1)
  | (Raise e, s1) =>
      run = (Raise e, BuildWorld s1 (calls w ++ [check]))
  end.
Proof.
  intros check fetch run. unfold run. rewrite build_from_params_run. simpl.
  fold check fetch.
  destruct (answer conn (hv w) check) as [[sup|e] s1]; [|done].
  destruct (truthy sup); [|done].
  by destruct (answer conn s1 fetch) as [[xml|e] s2].
Qed.

(** X9: an exception of the fetch never escapes [build_from_params]: what
    it raises was raised either by the support check or by the parser on
    a document that is true as a condition. *)
Theorem build_from_params_raises conn emulator arch machine hvtype w e w' :
  build_from_params conn emulator arch machine hvtype w = (Raise e, w') →
  (∃ s, answer conn (hv w)
          (check_support SUPPORT_CONN_DOMAIN_CAPABILITIES) = (Raise e, s)) ∨
  (∃ xml, truthy xml = true ∧ parsexml conn xml = Raise e).
Proof.
  rewrite build_from_params_run. simpl.
  destruct (answer conn (hv w) _) as [[sup|e0] s1].
  - destruct (truthy sup); [|done].
    destruct (answer conn s1 _) as [[xml|e1] s2]; [|done].
    destruct (truthy xml) eqn:Hxml; [|done].
    intros [= Hparse _]. right. by exists xml.
  - intros [= -> _]. left. by exists s1.
Qed.

(** X10: when the check returns a true value and the fetch returns a
    document that is true as a condition, the outcome of
    [build_from_params] is the outcome of parsing that document, after
    exactly the two calls. *)
Theorem build_from_params_parsed
    conn emulator arch machine hvtype w sup s1 xml s2 :
  answer conn (hv w) (check_support SUPPORT_CONN_DOMAIN_CAPABILITIES)
    = (Return sup, s1) →
  truthy sup = true →
  answer conn s1 (getDomainCapabilities emulator arch machine hvtype)
    = (Return xml, s2) →
  truthy xml = true →
  build_from_params conn emulator arch machine hvtype w =
    (parsexml conn xml,
     BuildWorld s2
       (calls w ++ [check_support SUPPORT_CONN_DOMAIN_CAPABILITIES;
                    getDomainCapabilities emulator arch machine hvtype])).
Proof.
  intros Hsup Htrue Hget Hxml. rewrite build_from_params_run. simpl.
  by rewrite Hsup, Htrue, Hget, Hxml.
Qed.

(** X11: [build_from_guest] fetches, on the connection of the guest, the
    document for the emulator, the arch and the machine of the os block,
    and the type of the guest, in this order of arguments; on a connection
    whose check returns a false value it returns the stub without
    fetching. *)
Theorem build_from_guest_fetch (guest : Guest.t St) w sup s1 :
  let check := check_support SUPPORT_CONN_DOMAIN_CAPABILITIES in
  let fetch :=
    getDomainCapabilities (Guest.emulator guest)
      (GuestOs.arch (Guest.os guest)) (GuestOs.machine (Guest.os guest))
      (Guest.type guest) in
  answer (Guest.conn guest) (hv w) check = (Return sup, s1) →
  (truthy sup = true →
     calls (build_from_guest guest w).2 = calls w ++ [check; fetch]) ∧
  (truthy sup = false →
     build_from_guest guest w =
       (Return (stub (Guest.conn guest)),
        BuildWorld s1 (calls w ++ [check]))).
Proof.
  intros check fetch Hsup. unfold build_from_guest.
  rewrite build_from_params_run. simpl. fold check fetch. rewrite Hsup.
  split; intros ->; [|done].
  by destruct (answer (Guest.conn guest) s1 fetch) as [[xml|e] s2].
Qed.

End building.

Lemma build_from_params_calls_witness :
  calls (build_from_params (XML := xml_document) conn_document
           None (Some "aarch64") None (Some "kvm") (BuildWorld tt [])).2
    = [ check_support SUPPORT_CONN_DOMAIN_CAPABILITIES;
        getDomainCapabilities None (Some "aarch64") None (Some "kvm") ] ∧
  build_from_params (XML := xml_document) conn_check_raises
      None (Some "aarch64") None (Some "kvm") (BuildWorld tt [])
    = (Raise (libvirtError "connection closed"),
       BuildWorld tt [ check_support SUPPORT_CONN_DOMAIN_CAPABILITIES ]).
Proof.
  split.
  - exact (proj1 (build_from_params_calls (XML := xml_document) conn_document
                    None (Some "aarch64") None (Some "kvm")
                    (BuildWorld tt []))).
  - exact (build_from_params_calls (XML := xml_document) conn_check_raises
             None (Some "aarch64") None (Some "kvm") (BuildWorld tt [])).
Defined.

Lemma build_from_params_raises_witness :
  (∃ s, answer conn_check_raises tt
          (check_support SUPPORT_CONN_DOMAIN_CAPABILITIES)
        = (Raise (libvirtError "connection closed"), s)) ∨
  (∃ xml, truthy xml = true ∧
          parsexml (XMLBuilder := xml_document) conn_check_raises xml
          = Raise (libvirtError "connection closed")).
Proof.
  apply (build_from_params_raises (XML := xml_document) conn_check_raises
           None (Some "aarch64") None (Some "kvm") (BuildWorld tt [])
           (libvirtError "connection closed")
           (BuildWorld tt [ check_support SUPPORT_CONN_DOMAIN_CAPABILITIES ])).
  reflexivity.
Defined.

Lemma build_from_params_parsed_witness :
  build_from_params (XML := xml_document) conn_document
      None (Some "aarch64") None (Some "kvm") (BuildWorld tt [])
    = (Return (Fixture.domcaps conn_document "aarch64" [] []),
       BuildWorld tt
         [ check_support SUPPORT_CONN_DOMAIN_CAPABILITIES;
           getDomainCapabilities None (Some "aarch64") None (Some "kvm") ]).
Proof.
  apply (build_from_params_parsed (XML := xml_document) conn_document
           None (Some "aarch64") None (Some "kvm") (BuildWorld tt [])
           (PyBool true) tt (PyStr "<domainCapabilities/>") tt);
    reflexivity.
Defined.

Lemma build_from_guest_fetch_witness :
  build_from_guest (XML := Fixture.xml) guest_unsupported (BuildWorld tt [])
    = (Return (stub conn_unsupported),
       BuildWorld tt [ check_support SUPPORT_CONN_DOMAIN_CAPABILITIES ]).
Proof.
  apply (proj2 (build_from_guest_fetch (XML := Fixture.xml) guest_unsupported
                  (BuildWorld tt []) (PyBool false) tt eq_refl)).
  reflexivity.
Defined.

(** ** What [get_cpu_security_features] returns and asks *)

Section security.
Context {St : Type} `{XML : !XMLBuilder St}.
Implicit Types (w : world St) (self : DomainCapabilities.t St).

Lemma security_names_in cpu :
  Forall (λ n, n ∈ sec_features) (security_names cpu).
Proof.
  apply Forall_forall. intros n Hn. unfold security_names in Hn.
  by apply list_elem_of_filter in Hn as [? _].
Qed.

Lemma security_scan_names self modes acc w r w' :
  security_scan self modes acc w r w' →
  ∀ l, r = Return l →
       Forall (λ n, n ∈ sec_features) acc →
       Forall (λ n, n ∈ sec_features) l.
Proof.
  induction 1 as [acc w|m modes acc w r w' Hm _ IH
                  |m modes acc w cpu w1 r w' Hm Hcpu _ IH
                  |m modes acc w msg w1 Hm Hcpu
                  |m modes acc w e w1 Hm Hcpu He]; intros l Hl Hacc.
  - by injection Hl as <-.
  - by apply IH.
  - apply IH; [done|]. apply Forall_app. split; [done|].
    apply security_names_in.
  - by injection Hl as <-.
  - done.
Qed.

(** X12: every name [get_cpu_security_features] returns is one of
    spec-ctrl, ssbd, ibpb and virt-ssbd, whatever features the hypervisor
    reports. *)
Theorem get_cpu_security_features_names self w l w' :
  get_cpu_security_features self w = (Return l, w') →
  Forall (λ n, n ∈ sec_features) l.
Proof.
  intros Hrun. unfold get_cpu_security_features in Hrun.
  pose proof (security_loop_scan self
                (_CPU.modes (DomainCapabilities.cpu self)) [] w) as Hscan.
  rewrite Hrun in Hscan.
  by apply (security_scan_names _ _ _ _ _ _ Hscan l).
Qed.

Lemma security_loop_skip_all self modes : ∀ acc w,
  (∀ m, m ∈ modes → ¬ expanded_mode m) →
  security_loop self modes acc w = (Return acc, w).
Proof.
  induction modes as [|m modes IH]; intros acc w Hall; [done|].
  rewrite security_loop_cons.
  destruct (negb _ || negb _) eqn:Hm.
  - apply IH. intros m' Hm'. apply Hall. by right.
  - apply expanded_mode_test in Hm. destruct (Hall m); [by left | done].
Qed.

(** X13: when no mode of the CPU tree is both named "host-model" and
    supported, [get_cpu_security_features] returns the empty list and
    issues no call on the connection. *)
Theorem get_cpu_security_features_no_host_model self w :
  (∀ m, m ∈ _CPU.modes (DomainCapabilities.cpu self) →
        ¬ (_CPUMode.name m = Some "host-model" ∧
           _CPUMode.supported m = Some true)) →
  get_cpu_security_features self w = (Return [], w).
Proof. apply security_loop_skip_all. Qed.

Lemma _get_expanded_cpu_record self mode w :
  ∃ new,
    calls (_get_expanded_cpu self mode w).2 = calls w ++ new ∧
    Forall (baseline_of self mode) new ∧
    (length new ≤ 2)%nat.
Proof.
  unfold _get_expanded_cpu, bind, try_except, lift, call, baseline_of.
  destruct (_convert_mode_to_cpu self (get_xml mode)) as [cpuXML|e0];
    simpl.
  - assert (∃ d, Return cpuXML = Return d ∧
                 (newer_baseline self cpuXML = newer_baseline self d ∨
                  newer_baseline self cpuXML = older_baseline d)) as Hnewer
      by eauto.
    assert (∃ d, Return cpuXML = Return d ∧
                 (older_baseline cpuXML = newer_baseline self d ∨
                  older_baseline cpuXML = older_baseline d)) as Holder
      by eauto.
    fold (newer_baseline self cpuXML). fold (older_baseline cpuXML).
    destruct (answer _ (hv w) _) as [[xml|e] s1]; simpl.
    + exists [ newer_baseline self cpuXML ].
      split; [done|]. split; [by repeat constructor | simpl; lia].
    + destruct (is_libvirtError e); simpl.
      * exists [ newer_baseline self cpuXML; older_baseline cpuXML ].
        split; [|split; [by repeat constructor | simpl; lia]].
        destruct (answer _ s1 _) as [[xml|e'] s2]; simpl;
          by rewrite <- app_assoc.
      * exists [ newer_baseline self cpuXML ].
        split; [done|]. split; [by repeat constructor | simpl; lia].
  - exists []. split; [by rewrite app_nil_r|].
    split; [constructor | simpl; lia].
Qed.

Lemma security_loop_record self modes : ∀ acc w,
  ∃ new,
    calls (security_loop self modes acc w).2 = calls w ++ new ∧
    Forall (λ c, ∃ m, m ∈ modes ∧ expanded_mode m ∧ baseline_of self m c)
      new ∧
    (length new ≤
      2 * length (filter (λ m, _CPUMode.name m = Some "host-model" ∧
                               _CPUMode.supported m = Some true) modes))%nat.
Proof.
  induction modes as [|m modes IH]; intros acc w.
  - exists []. simpl. by rewrite app_nil_r.
  - rewrite security_loop_cons, filter_cons.
    assert (∀ new,
      Forall (λ c, ∃ m', m' ∈ modes ∧ expanded_mode m' ∧
                         baseline_of self m' c) new →
      Forall (λ c, ∃ m', m' ∈ m :: modes ∧ expanded_mode m' ∧
                         baseline_of self m' c) new) as Hweak.
    { intros new Hnew. eapply Forall_impl; [exact Hnew|].
      intros c (m' & ? & ?). exists m'. split; [by right | done]. }
    destruct (negb _ || negb _) eqn:Hm.
    + destruct (IH acc w) as (new & Hcalls & Hall & Hlen).
      exists new. split; [done|]. split; [by apply Hweak|].
      destruct (decide _); simpl; lia.
    + apply expanded_mode_test in Hm. rewrite decide_True by done.
      destruct (_get_expanded_cpu_record self m w)
        as (first & Hfirst & Hbase & Hlen).
      assert (Forall (λ c, ∃ m', m' ∈ m :: modes ∧ expanded_mode m' ∧
                           baseline_of self m' c) first) as Hfirst_all.
      { eapply Forall_impl; [exact Hbase|].
        intros c Hc. exists m. split; [by left | done]. }
      destruct (_get_expanded_cpu self m w) as [[cpu|e] w1]; simpl in *.
      * destruct (IH (acc ++ security_names cpu) w1) as (new & -> & Hall & ?).
        exists (first ++ new). rewrite Hfirst, <- app_assoc.
        split; [done|]. split; [|rewrite length_app; lia].
        apply Forall_app. split; [done | by apply Hweak].
      * exists first.
        split; [by destruct (is_libvirtError e)|].
        split; [done | lia].
Qed.

(** X14: the calls [get_cpu_security_features] issues come after those
    already made and are baseline calls only, each the newer or the older
    call for the descriptor of a supported host-model mode of the tree; it
    issues at most two calls per such mode. *)
Theorem get_cpu_security_features_calls self w :
  ∃ new,
    calls (get_cpu_security_features self w).2 = calls w ++ new ∧
    Forall (λ c, ∃ m, m ∈ _CPU.modes (DomainCapabilities.cpu self) ∧
                      expanded_mode m ∧ baseline_of self m c) new ∧
    (length new ≤
      2 * length (filter (λ m, _CPUMode.name m = Some "host-model" ∧
                               _CPUMode.supported m = Some true)
                    (_CPU.modes (DomainCapabilities.cpu self))))%nat.
Proof. apply security_loop_record. Qed.

End security.

Lemma get_cpu_security_features_names_witness :
  Forall (λ n, n ∈ sec_features) [ "spec-ctrl"; "ibpb"; "ssbd" ].
Proof.
  apply (get_cpu_security_features_names (XML := Fixture.xml) caps_baseline
           (BuildWorld 0 []) _
           (BuildWorld 3
              [ newer_call; older_call; newer_call; older_call;
                newer_call; older_call ])).
  vm_compute; reflexivity.
Defined.

Lemma get_cpu_security_features_no_host_model_witness :
  get_cpu_security_features (XML := Fixture.xml)
      (Fixture.domcaps conn_baseline "x86_64" []
         [ Fixture.mode "custom" (Some true) spec_models;
           Fixture.mode "host-model" (Some false) [] ])
      (BuildWorld 0 [])
    = (Return [], BuildWorld 0 []).
Proof.
  apply (get_cpu_security_features_no_host_model (XML := Fixture.xml)).
  intros m Hm [Hname Hsup]. apply list_elem_of_In in Hm. simpl in Hm.
  destruct Hm as [<- | [<- | []]]; discriminate.
Defined.

Lemma get_cpu_security_features_calls_witness :
  ∃ new,
    calls (get_cpu_security_features (XML := Fixture.xml) caps_baseline
             (BuildWorld 0 [])).2 = [] ++ new ∧
    (length new ≤ 8)%nat.
Proof.
  destruct (get_cpu_security_features_calls (XML := Fixture.xml)
              caps_baseline (BuildWorld 0 [])) as (new & Hcalls & _ & Hlen).
  exists new. split; [exact Hcalls | exact Hlen].
Defined.

(** ** What the x86_64 patterns accept *)

Module PatternFacts.
Import Re ReFacts.

Lemma matches_star_dot u :
  matches (Star Dot) u ↔ Forall (λ c, dot_ok c = true) u.
Proof.
  split.
  - intros H. remember (Star Dot) as r eqn:Hr.
    induction H as [| | | | | | |r' u v Hu _ Hv IHv]; try discriminate.
    + constructor.
    + injection Hr as ->. apply Forall_app. split; [|by apply IHv].
      inversion Hu; subst. by repeat constructor.
  - induction 1 as [|c u Hc _ IH]; [constructor|].
    apply (matches_star_app Dot [c] u); [by constructor | done].
Qed.

Lemma matches_literal l r u :
  matches (literal l r) u ↔ ∃ u', u = l ++ u' ∧ matches r u'.
Proof.
  revert u. induction l as [|c l IH]; intros u; simpl.
  - split; [eauto | by intros (u' & -> & ?)].
  - split.
    + intros (u1 & u2 & -> & Hc & Hl)%matches_cat_inv.
      apply IH in Hl as (u' & -> & Hr). inversion Hc; subst. eauto.
    + intros (u' & -> & Hr). apply (matches_cat _ _ [c] (l ++ u')).
      * constructor.
      * apply IH. eauto.
Qed.

(** A pattern that starts with [.*] and a literal accepts only subjects
    that carry every prefix of that literal on their first line. *)
Lemma literal_prefix_on_first_line lit more r s :
  match_prefix (Cat (Star Dot) (literal (lit ++ more) r)) s = true →
  on_first_line lit s.
Proof.
  intros (u & w & -> & Hu)%match_prefix_spec.
  apply matches_cat_inv in Hu as (before & u2 & -> & Hdots & Hlit).
  apply matches_literal in Hlit as (u3 & -> & _).
  exists before, (more ++ u3 ++ w). split.
  - by rewrite <- !app_assoc.
  - by apply matches_star_dot.
Qed.

(** The catch-all [.*lit.*] accepts exactly those subjects. *)
Lemma catch_all_on_first_line lit s :
  match_prefix (Cat (Star Dot) (literal lit (Cat (Star Dot) Eps))) s = true
  ↔ on_first_line lit s.
Proof.
  split.
  - rewrite <- (app_nil_r lit) at 1. apply literal_prefix_on_first_line.
  - intros (before & after & -> & Hdots). apply match_prefix_spec.
    exists (before ++ lit ++ []), after. split.
    + by rewrite app_nil_r, <- app_assoc.
    + apply matches_cat; [by apply matches_star_dot|].
      apply matches_literal. exists []. split; [done|].
      apply (matches_cat _ _ [] []); constructor.
Qed.

End PatternFacts.

(** X15: on an x86_64 instance [find_uefi_path_for_arch] returns a path
    exactly when some loader value carries "ovmf" or "OVMF" on its first
    line: the three vendor patterns only decide which value is preferred,
    none of them accepts a value that both catch-all patterns reject. *)
Theorem find_uefi_path_x86_64_catch_all {St}
    (self : DomainCapabilities.t St) :
  DomainCapabilities.arch self = Some "x86_64" →
  (is_Some (find_uefi_path_for_arch self) ↔
   ∃ v, v ∈ map _Value.value
              (_CapsBlock.values (_OS.loader (DomainCapabilities.os self))) ∧
        (on_first_line (list_ascii_of_string "ovmf")
           (list_ascii_of_string v) ∨
         on_first_line (list_ascii_of_string "OVMF")
           (list_ascii_of_string v))).
Proof.
  intros Harch.
  set (values := map _Value.value
         (_CapsBlock.values (_OS.loader (DomainCapabilities.os self)))).
  assert (find_uefi_path_for_arch self =
          find_pattern [ ".*OVMF_CODE\.fd"; ".*ovmf-x64/OVMF.*\.fd";
                         ".*ovmf-x86_64-.*"; ".*ovmf.*"; ".*OVMF.*" ] values)
    as ->.
  { unfold find_uefi_path_for_arch, arch_can_uefi. by rewrite Harch. }
  split.
  - intros [v (pre & p & post & Hpats & Hp & _)%find_pattern_Some].
    apply find_path_Some in Hp as (vpre & vpost & Hv & Hm & _).
    exists v. split; [rewrite Hv; apply elem_of_app; right; by left|].
    assert (p ∈ [ ".*OVMF_CODE\.fd"; ".*ovmf-x64/OVMF.*\.fd";
                  ".*ovmf-x86_64-.*"; ".*ovmf.*"; ".*OVMF.*" ]) as Hin.
    { rewrite Hpats. apply elem_of_app. right. by left. }
    unfold Re.re_match in Hm. apply list_elem_of_In in Hin. simpl in Hin.
    destruct Hin as [<- | [<- | [<- | [<- | [<- | []]]]]].
    + right.
      apply (PatternFacts.literal_prefix_on_first_line
               (list_ascii_of_string "OVMF")
               (list_ascii_of_string "_CODE.fd") Re.Eps _ Hm).
    + left.
      apply (PatternFacts.literal_prefix_on_first_line
               (list_ascii_of_string "ovmf")
               (list_ascii_of_string "-x64/OVMF")
               (Re.Cat (Re.Star Re.Dot)
                  (literal (list_ascii_of_string ".fd") Re.Eps)) _ Hm).
    + left.
      apply (PatternFacts.literal_prefix_on_first_line
               (list_ascii_of_string "ovmf")
               (list_ascii_of_string "-x86_64-")
               (Re.Cat (Re.Star Re.Dot) Re.Eps) _ Hm).
    + left. by apply PatternFacts.catch_all_on_first_line.
    + right. by apply PatternFacts.catch_all_on_first_line.
  - intros (v & Hv & Hline).
    destruct (find_pattern _ values) as [v'|] eqn:Hfind; [by eexists|].
    rewrite find_pattern_None in Hfind.
    destruct Hline as [Hline | Hline];
      apply PatternFacts.catch_all_on_first_line in Hline.
    + change (Re.re_match ".*ovmf.*" v = true) in Hline.
      rewrite (Hfind ".*ovmf.*" v) in Hline; [done | | done].
      do 3 apply list_elem_of_further. apply list_elem_of_here.
    + change (Re.re_match ".*OVMF.*" v = true) in Hline.
      rewrite (Hfind ".*OVMF.*" v) in Hline; [done | | done].
      do 4 apply list_elem_of_further. apply list_elem_of_here.
Qed.

Lemma find_uefi_path_x86_64_catch_all_witness :
  is_Some (find_uefi_path_for_arch caps_x86_64).
Proof.
  apply (proj2 (find_uefi_path_x86_64_catch_all caps_x86_64 eq_refl)).
  exists "/usr/share/ovmf/plain.bin". split; [apply list_elem_of_here|].
  left. exists (list_ascii_of_string "/usr/share/"),
    (list_ascii_of_string "/plain.bin").
  split; [reflexivity|]. repeat constructor.
Defined.

(** ** The shape of a label *)

(** X16: for a non-empty path the label is "Custom: <path>" or
    "UEFI <arch>: <path>" for an architecture of the table, never the BIOS
    or None label, and it is the same on every instance: the arch of the
    instance plays no part. *)
Theorem label_for_firmware_path_shape {St}
    (self other : DomainCapabilities.t St) (p : string) :
  p ≠ EmptyString →
  (label_for_firmware_path self (Some p) = "Custom: " +:+ p ∨
   ∃ a, a ∈ _uefi_arch_patterns.*1 ∧
        label_for_firmware_path self (Some p)
          = "UEFI " +:+ a +:+ ": " +:+ p) ∧
  label_for_firmware_path self (Some p)
    = label_for_firmware_path other (Some p).
Proof.
  intros Hp. destruct p as [|c p]; [done|].
  unfold label_for_firmware_path. split; [|done].
  destruct (label_items _uefi_arch_patterns (String c p)) as [l|] eqn:Hl.
  - right. by apply label_items_form in Hl.
  - by left.
Qed.

Lemma label_for_firmware_path_shape_witness :
  label_for_firmware_path caps_x86_64 (Some "/weird/path")
    = label_for_firmware_path caps_s390x (Some "/weird/path").
Proof.
  apply (proj2 (label_for_firmware_path_shape caps_x86_64 caps_s390x
                  "/weird/path" ltac:(discriminate))).
Defined.

(** ** More on the per-mode values and on repeated host-model modes *)

(** X17: in the list [supports_safe_host_model] returns, the entry of a
    mode is [None], rather than [False], exactly when the mode is named
    "host-model" and has no [supported] attribute: the [and] chain yields
    the value of the attribute itself. *)
Theorem supports_safe_host_model_None {St}
    (self : DomainCapabilities.t St) (l : list pyval) :
  supports_safe_host_model self = Return l →
  Forall2 (λ m v, v = PyNone ↔ _CPUMode.name m = Some "host-model" ∧
                               _CPUMode.supported m = None)
    (_CPU.modes (DomainCapabilities.cpu self)) l.
Proof.
  intros Hl%comprehension_Forall2.
  eapply Forall2_impl; [exact Hl|]. intros m v. apply safe_host_model_None.
Qed.

Lemma supports_safe_host_model_None_witness :
  Forall2 (λ m v, v = PyNone ↔ _CPUMode.name m = Some "host-model" ∧
                               _CPUMode.supported m = None)
    host_models [ PyNone; PyBool true; PyBool false; PyBool false ].
Proof.
  apply (supports_safe_host_model_None caps_host_models). reflexivity.
Defined.

Section repeated.
Context {St : Type} `{XML : !XMLBuilder St}.
Implicit Types (w : world St) (self : DomainCapabilities.t St).

Lemma security_loop_expansions self modes w cpus w' :
  expansions self modes w cpus w' →
  ∀ acc,
    security_loop self modes acc w =
      (Return (acc ++ concat (map security_names cpus)), w') ∧
    length cpus =
      length (filter (λ m, _CPUMode.name m = Some "host-model" ∧
                           _CPUMode.supported m = Some true) modes).
Proof.
  induction 1 as [w|m modes w cpus w' Hm _ IH
                  |m modes w cpu w1 cpus w' Hm Hcpu _ IH]; intros acc.
  - simpl. by rewrite app_nil_r.
  - rewrite security_loop_cons, filter_cons, decide_False by done.
    destruct (negb _ || negb _) eqn:Hskip; [apply IH|].
    by apply expanded_mode_test in Hskip.
  - rewrite security_loop_cons, filter_cons, decide_True by done.
    rewrite (proj2 (expanded_mode_test m) Hm), Hcpu.
    destruct (IH (acc ++ security_names cpu)) as [-> Hlen].
    simpl. by rewrite <- app_assoc, Hlen.
Qed.

(** X18: when every supported host-model mode expands, each in the world
    the expansion before it left, the query returns the security names of
    the descriptions obtained, one stretch per such mode in document
    order, and ends in the world after the last expansion: a name is listed
    again for each mode that reports it, nothing is merged. *)
Theorem get_cpu_security_features_all_expand self w cpus w' :
  expansions self (_CPU.modes (DomainCapabilities.cpu self)) w cpus w' →
  get_cpu_security_features self w =
    (Return (concat (map security_names cpus)), w') ∧
  length cpus =
    length (filter (λ m, _CPUMode.name m = Some "host-model" ∧
                         _CPUMode.supported m = Some true)
              (_CPU.modes (DomainCapabilities.cpu self))).
Proof.
  intros Hexp. unfold get_cpu_security_features.
  apply (security_loop_expansions _ _ _ _ _ Hexp []).
Qed.

End repeated.

(** On a hypervisor whose answers change from call to call. *)
Lemma get_cpu_security_features_all_expand_witness :
  get_cpu_security_features (XML := Fixture.xml) caps_baseline_two
      (BuildWorld 0 [])
    = (Return [ "spec-ctrl"; "ibpb"; "ssbd" ],
       BuildWorld 2
         [ newer_call; older_call; newer_call; older_call ]).
Proof.
  apply (get_cpu_security_features_all_expand (XML := Fixture.xml)
           caps_baseline_two (BuildWorld 0 [])
           [ DomainCpu.Build
               [ _CPUFeature.Build (Some "spec-ctrl") (Some "require");
                 _CPUFeature.Build (Some "vmx") (Some "require");
                 _CPUFeature.Build None None;
                 _CPUFeature.Build (Some "ibpb") (Some "require") ];
             DomainCpu.Build
               [ _CPUFeature.Build (Some "ssbd") (Some "require") ] ]).
  apply expansions_skip; [by intros [? _]|].
  eapply expansions_cons; [by split | vm_compute; reflexivity|].
  eapply expansions_cons; [by split | vm_compute; reflexivity|].
  apply expansions_nil.
Defined.

(** Two modes that report the same feature: the name is listed twice. *)
Example get_cpu_security_features_repeated_name :
  get_cpu_security_features (XML := Fixture.xml) caps_two_host_models
      (BuildWorld tt [])
    = (Return [ "ssbd"; "ssbd" ], BuildWorld tt [ newer_call; newer_call ]).
Proof. vm_compute; reflexivity. Qed.
